(** * Launchpad Pro MK3 control surface (libs/surfaces/launchpad_pro/lppro.cc)

    A shallow embedding of the logical core of the driver: the SysEx
    messages it builds, the per-layout note/coordinate tables, the pad map,
    the device-mode switch and the inbound MIDI handlers.

    Conventions.
    - A [MIDI::byte] is a [Z] in [0, 256); a [MidiByteArray] is a [list Z].
      Pushing an [int] onto a byte array keeps its low eight bits ([to_byte]).
    - A C++ [int] is a [Z].  Every index computed below stays far inside the
      32-bit range for the inputs the driver can receive (layouts 0..19,
      bytes 0..255), so no wrap-around is written out.
    - A [std::vector<int>] is a [list Z].  Reading or writing through
      [operator[]] outside the vector is undefined behaviour in the source;
      the embedding makes it explicit as [None].
    - [std::map<int,Pad>] is a [gmap Z Pad].
    - Writes to the MIDI ports, [g_usleep], text sent to [std::cerr] and
      [DEBUG_TRACE] lines are recorded, in program order, in an effect trace.
      A [DEBUG_TRACE] line is printed only when the Launchpad debug bit is
      set; the trace records the request.  Text is recorded as a format
      with the numbers it shows.  The diagnostics of the constructor are
      not recorded: [build_pad_map] and [build_layout_maps] are functions
      on the members they fill. *)

From Stdlib Require Import ZArith List Ascii String QArith Qround Lia.
From stdpp Require Import base option list gmap.

Local Open Scope Z_scope.

(** ** Bytes and the SysEx header *)

Definition MidiByteArray : Type := list Z.

(** Conversion of an [int] to [MIDI::byte] (an [unsigned char]). *)
Definition to_byte (z : Z) : Z := z mod 256.

(** [static const std::vector<MIDI::byte> sysex_header] *)
Definition sysex_header : MidiByteArray := [0xf0; 0x00; 0x20; 0x29; 0x2; 0xe].

(** ** Enumerations *)

(** The layouts named by [AllLayouts], in the order of that array. *)
Inductive Layout : Type :=
  SessionLayout | Fader | ChordLayout | CustomLayout | NoteLayout | Scale
| SequencerSettings | SequencerSteps | SequencerVelocity
| SequencerPatternSettings | SequencerProbability | SequencerMutation
| SequencerMicroStep | SequencerProjects | SequencerPatterns | SequencerTempo
| SequencerSwing | ProgrammerLayout | Settings | CustomSettings.

#[global] Instance Layout_eq_dec : EqDecision Layout.
Proof. solve_decision. Defined.

(** [const LaunchPadPro::Layout LaunchPadPro::AllLayouts[]] *)
Definition AllLayouts : list Layout :=
  [ SessionLayout; Fader; ChordLayout; CustomLayout; NoteLayout; Scale;
    SequencerSettings; SequencerSteps; SequencerVelocity;
    SequencerPatternSettings; SequencerProbability; SequencerMutation;
    SequencerMicroStep; SequencerProjects; SequencerPatterns; SequencerTempo;
    SequencerSwing; ProgrammerLayout; Settings; CustomSettings ].

(** Modelled from the spec: the integer value of each [Layout] enumerator.
    The enum is declared in lppro.h, which is not part of the sources at
    hand.  The spec speaks of a [layout_index] that is the position of the
    layout in the enumeration (index 2 is the 3rd enumerated layout), so the
    value of a layout is its position in [AllLayouts]. *)
Definition layout_value (l : Layout) : Z :=
  match l with
  | SessionLayout => 0 | Fader => 1 | ChordLayout => 2 | CustomLayout => 3
  | NoteLayout => 4 | Scale => 5 | SequencerSettings => 6
  | SequencerSteps => 7 | SequencerVelocity => 8
  | SequencerPatternSettings => 9 | SequencerProbability => 10
  | SequencerMutation => 11 | SequencerMicroStep => 12
  | SequencerProjects => 13 | SequencerPatterns => 14 | SequencerTempo => 15
  | SequencerSwing => 16 | ProgrammerLayout => 17 | Settings => 18
  | CustomSettings => 19
  end.

(** [enum DeviceMode] *)
Inductive DeviceMode : Type := Standalone | DAW | Programmer.

(** The edge pads named by [all_pad_ids] and registered by [build_pad_map]. *)
Inductive PadID : Type :=
  Shift | Left | Right | Session | Note | Chord | Custom | Sequencer | Projects
| Patterns | Steps | PatternSettings | Velocity | Probability | Mutation
| MicroStep | PrintToClip
| StopClip | Device | Sends | Pan | Volume | Solo | Mute | RecordArm
| CaptureMIDI | Play | FixedLength | Quantize | Duplicate | Clear | Down | Up
| Lower1 | Lower2 | Lower3 | Lower4 | Lower5 | Lower6 | Lower7 | Lower8.

(** [enum Pad::ColorMode] *)
Inductive ColorMode : Type := Static | Flashing | Pulsing.

(** Modelled from the spec: the [Pad] record.  The struct is declared in
    lppro.h; the spec gives it an id, an optional grid position (row, col),
    a colour and a colour mode. *)
Record Pad : Type := mkPad {
  pad_id : Z;
  grid_position : option (Z * Z);
  color : Z;
  color_mode : ColorMode
}.

(** Modelled from the spec: the two [Pad] constructors used by
    [build_pad_map], [Pad (id)] for an edge pad and [Pad (pid, row, col)] for
    a grid pad.  Neither the spec nor the sources at hand give the colour
    and mode of a fresh pad; they are taken as 0 and [Static], and no
    property below depends on them. *)
Definition Pad_edge (id : Z) : Pad := mkPad id None 0 Static.
Definition Pad_grid (pid row col : Z) : Pad := mkPad pid (Some (row, col)) 0 Static.

(** ** The driver object *)

Record LaunchPadPro : Type := mkLaunchPadPro {
  _current_layout : Layout;
  pad_map : gmap Z Pad;
  layout_xy_note_map : list Z;
  layout_note_xy_map : list Z
}.

(** The driver [lp] with its current layout replaced by [l]. *)
Definition with_layout (lp : LaunchPadPro) (l : Layout) : LaunchPadPro :=
  mkLaunchPadPro l (pad_map lp) (layout_xy_note_map lp) (layout_note_xy_map lp).

(** ** Vectors *)

(** [v[i]] as an rvalue. *)
Definition vec_get (v : list Z) (i : Z) : option Z :=
  if bool_decide (0 ≤ i) then v !! Z.to_nat i else None.

(** [v[i] = x]. *)
Definition vec_set (v : list Z) (i x : Z) : option (list Z) :=
  if bool_decide (0 ≤ i < Z.of_nat (length v))
  then Some (<[Z.to_nat i := x]> v) else None.

(** [v.resize (n)]: truncates, or pads with value-initialised (zero) ints. *)
Definition vec_resize (n : nat) (v : list Z) : list Z :=
  take n v ++ replicate (n - length v) 0.

(** ** Layout tables *)

(** [XY_Note_Map]: eight rows of eight note numbers. *)
Definition XY_Note_Map : Type := list (list Z).

(** [static const XY_Note_Map maps[]] of [build_layout_maps].  Every table
    after the first is inside [#if 0] and is not compiled. *)
Definition maps : list XY_Note_Map :=
  [ (* Session *)
    [ [ 0x51; 0x52; 0x53; 0x54; 0x55; 0x56; 0x57; 0x58 ];
      [ 0x47; 0x48; 0x49; 0x4a; 0x4b; 0x4c; 0x4d; 0x4e ];
      [ 0x3d; 0x3e; 0x3f; 0x40; 0x41; 0x42; 0x43; 0x44 ];
      [ 0x33; 0x34; 0x35; 0x36; 0x37; 0x38; 0x39; 0x3a ];
      [ 0x29; 0x2a; 0x2b; 0x2c; 0x2d; 0x2e; 0x2f; 0x30 ];
      [ 0x1f; 0x20; 0x21; 0x22; 0x23; 0x24; 0x25; 0x26 ];
      [ 0x15; 0x16; 0x17; 0x18; 0x19; 0x1a; 0x1b; 0x1c ];
      [ 0xb;  0xc;  0xe;  0xd;  0xf;  0x10; 0x11; 0x12 ] ] ].

(** [maps[layout][row][col]] *)
Definition maps_at (ms : list XY_Note_Map) (layout row col : nat) : option Z :=
  m ← ms !! layout; r ← m !! row; r !! col.

(** [LaunchPadPro::note_xy_index] *)
Definition note_xy_index (layout note : Z) : Z := (layout * 127) + note.

(** [LaunchPadPro::xy_note_index] *)
Definition xy_note_index (layout col row : Z) : Z := (layout * 64) + (row * 8) + col.

(** The iteration space of the two loop nests of [build_layout_maps], in the
    order the loops visit it: layout outermost, then row, then col. *)
Definition layout_loop (num_layouts : nat) : list (nat * nat * nat) :=
  layout ← seq 0 num_layouts; row ← seq 0 8; col ← seq 0 8; [(layout, row, col)].

(** Body of the first loop nest. *)
Definition forward_step (ms : list XY_Note_Map) (xy : list Z)
    (i : nat * nat * nat) : option (list Z) :=
  let '(layout, row, col) := i in
  note ← maps_at ms layout row col;
  vec_set xy (xy_note_index (Z.of_nat layout) (Z.of_nat col) (Z.of_nat row)) note.

(** Body of the second loop nest. *)
Definition inverse_step (xy : list Z) (nxy : list Z)
    (i : nat * nat * nat) : option (list Z) :=
  let '(layout, row, col) := i in
  note ← vec_get xy (xy_note_index (Z.of_nat layout) (Z.of_nat col) (Z.of_nat row));
  vec_set nxy (note_xy_index (Z.of_nat layout) note) (Z.of_nat row * 8 + Z.of_nat col).

(** Running a loop body over its iteration space, stopping at the first
    undefined access. *)
Fixpoint run_loop {A I : Type} (body : A → I → option A) (idxs : list I) (a : A)
    : option A :=
  match idxs with
  | [] => Some a
  | i :: idxs => a' ← body a i; run_loop body idxs a'
  end.

(** [LaunchPadPro::build_layout_maps], on the two member vectors. *)
Definition build_layout_maps_from (ms : list XY_Note_Map) (xy nxy : list Z)
    : option (list Z * list Z) :=
  let num_layouts := length ms in
  let xy := vec_resize (num_layouts * 64) xy in
  xy ← run_loop (forward_step ms) (layout_loop num_layouts) xy;
  let nxy := vec_resize (128 * num_layouts) nxy in
  nxy ← run_loop (inverse_step xy) (layout_loop num_layouts) nxy;
  Some (xy, nxy).

Definition build_layout_maps (lp : LaunchPadPro) : option LaunchPadPro :=
  '(xy, nxy) ← build_layout_maps_from maps (layout_xy_note_map lp) (layout_note_xy_map lp);
  Some (mkLaunchPadPro (_current_layout lp) (pad_map lp) xy nxy).

(** [LaunchPadPro::note_to_xy].  [%] and [/] of C++ are [Z.rem] and [Z.quot]. *)
Definition note_to_xy (lp : LaunchPadPro) (note : Z) : option (Z * Z) :=
  coord ← vec_get (layout_note_xy_map lp)
                  (note_xy_index (layout_value (_current_layout lp)) note);
  Some (Z.rem coord 8, Z.quot coord 8).

(** ** Effects and the driver monad *)

(** What a member function does besides changing the object. *)
Inductive effect : Type :=
| PortWrite (msg : MidiByteArray)              (* [write (msg)], primary port *)
| DawWrite (msg : MidiByteArray)               (* [daw_write (msg)] *)
| USleep (usecs : Z)                           (* [g_usleep (usecs)] *)
| Cerr (text : string) (args : list Z)         (* [std::cerr << ...] *)
| DebugTrace (text : string) (args : list Z).  (* [DEBUG_TRACE (...)] *)

(** Text on [std::cerr] and debug trace lines are diagnostics; everything
    else reaches the device or the clock. *)
Definition is_diagnostic (e : effect) : bool :=
  match e with
  | Cerr _ _ | DebugTrace _ _ => true
  | PortWrite _ | DawWrite _ | USleep _ => false
  end.

(** The text a member function sends to [std::cerr]. *)
Definition is_cerr (e : effect) : bool :=
  match e with Cerr _ _ => true | _ => false end.

(** A member function of [LaunchPadPro]: from the object before the call to
    the returned value, the object after the call and the effects in program
    order; [None] when the call runs into undefined behaviour. *)
Definition M (A : Type) : Type :=
  LaunchPadPro → option (A * LaunchPadPro * list effect).

Definition M_ret {A} (a : A) : M A := λ lp, Some (a, lp, []).

Definition M_bind {A B} (f : A → M B) (m : M A) : M B := λ lp,
  match m lp with
  | Some (a, lp1, out1) =>
      match f a lp1 with
      | Some (b, lp2, out2) => Some (b, lp2, out1 ++ out2)
      | None => None
      end
  | None => None
  end.

#[global] Instance M_mret : MRet M := @M_ret.
#[global] Instance M_mbind : MBind M := @M_bind.

Definition emit (e : effect) : M unit := λ lp, Some (tt, lp, [e]).
Definition this : M LaunchPadPro := λ lp, Some (lp, lp, []).
Definition defined {A} (o : option A) : M A := λ lp,
  match o with Some a => Some (a, lp, []) | None => None end.
Definition set_current_layout (l : Layout) : M unit := λ lp,
  Some (tt, with_layout lp l, []).

Definition write (msg : MidiByteArray) : M unit := emit (PortWrite msg).
Definition daw_write (msg : MidiByteArray) : M unit := emit (DawWrite msg).
Definition g_usleep (usecs : Z) : M unit := emit (USleep usecs).
Definition cerr (text : string) (args : list Z) : M unit := emit (Cerr text args).
Definition DEBUG_TRACE (text : string) (args : list Z) : M unit :=
  emit (DebugTrace text args).

(** [msg.push_back (b)] *)
Definition push_back (msg : MidiByteArray) (b : Z) : MidiByteArray :=
  msg ++ [to_byte b].

Notation "msg <<< b" := (push_back msg b) (at level 50, left associativity).

(** The state a call leaves behind and the effects it had. *)
Definition state_after {A} (r : option (A * LaunchPadPro * list effect))
    : option LaunchPadPro :=
  match r with Some (_, lp, _) => Some lp | None => None end.

Definition effects_of {A} (r : option (A * LaunchPadPro * list effect))
    : list effect :=
  match r with Some (_, _, out) => out | None => [] end.

(** ** Outbound operations *)

(** [LaunchPadPro::all_pads_off] *)
Definition all_pads_off : M unit :=
  let msg := sysex_header in
  let msg := msg <<< 0x3 in
  let msg := foldl (λ msg n, msg <<< 0x0 <<< n <<< 13) msg (seqZ 1 31) in
  let msg := msg <<< 0xf7 in
  daw_write msg.

(** [LaunchPadPro::set_device_mode] *)
Definition set_device_mode (m : DeviceMode) : M unit :=
  let standalone_or_daw := sysex_header in
  let live_or_programmer := sysex_header in
  match m with
  | Standalone =>
      cerr "entering standalone mode\n" [];;
      let live_or_programmer := live_or_programmer <<< 0xe <<< 0x0 <<< 0xf7 in
      write live_or_programmer;;
      g_usleep 100000;;
      let standalone_or_daw := standalone_or_daw <<< 0x10 <<< 0x0 <<< 0xf7 in
      write standalone_or_daw
  | DAW =>
      let standalone_or_daw := standalone_or_daw <<< 0x10 <<< 0x1 <<< 0xf7 in
      write standalone_or_daw
  | Programmer =>
      cerr "entering programmer mode\n" [];;
      let live_or_programmer := live_or_programmer <<< 0xe <<< 0x1 <<< 0xf7 in
      write live_or_programmer
  end.

(** The code of a [char] of a [std::string], as an unsigned value.  Whether
    [char] is signed does not matter below: the character is masked with a
    constant below 256 and the result is stored in a byte. *)
Definition char_code (c : ascii) : Z := Z.of_N (N_of_ascii c).

(** [LaunchPadPro::scroll_text].  The [float] speed is an exact rational:
    the rounding of [1.f + (speed * 6.f)] to single precision is left out,
    and the conversion of the floor to [MIDI::byte] is [to_byte] (the
    conversion is only defined in C++ for a floor between 0 and 255). *)
Definition scroll_text (txt : string) (color : Z) (loop : bool) (speed : Q)
    : M unit :=
  let hdr := Z.of_nat (length sysex_header) in
  let msg := sysex_header in
  let msg := msg <<< 0x32 in
  let msg := msg <<< color in
  let msg := msg <<< (if loop then 1 else 0) in
  let msg := foldl (λ msg c, msg <<< Z.land (char_code c) 0xf7) msg
                   (list_ascii_of_string txt) in
  let msg := msg <<< 0xf7 in
  daw_write msg;;
  if negb (Qeq_bool speed 0) then
    msg ← defined (vec_set msg (hdr + 3) (to_byte (Qfloor (1 + speed * 6))));
    msg ← defined (vec_set msg (hdr + 4) 0xf7);
    let msg := vec_resize (Z.to_nat (hdr + 5)) msg in
    daw_write msg
  else mret tt.

(** ** Inbound handlers *)

(** [MIDI::EventTwoBytes], as the note handlers read it. *)
Record EventTwoBytes : Type := mkEvent { note_number : Z; velocity : Z }.

(** [LaunchPadPro::handle_midi_sysex]; [sz] is the length of [raw_bytes]. *)
Definition handle_midi_sysex (raw_bytes : list Z) : M unit :=
  let sz := Z.of_nat (length raw_bytes) in
  let hdr := Z.of_nat (length sysex_header) in
  DEBUG_TRACE "Sysex, %1 bytes\n" [sz];;
  if bool_decide (sz < hdr + 1) then mret tt else
  let num_layouts := Z.of_nat (length AllLayouts) in
  let raw_bytes := drop (length sysex_header) raw_bytes in
  b0 ← defined (vec_get raw_bytes 0);
  match b0 with
  | 0x0 => (* layout info *)
      if bool_decide (sz < hdr + 2) then mret tt else
      b1 ← defined (vec_get raw_bytes 1);
      if bool_decide (b1 < num_layouts) then
        l ← defined (if bool_decide (0 ≤ b1) then AllLayouts !! Z.to_nat b1 else None);
        set_current_layout l;;
        cerr "Current layout = %1\n" [layout_value l]
      else
        cerr "ignore illegal layout index %1\n" [b1]
  | _ => mret tt
  end.

(** [LaunchPadPro::handle_midi_note_off_message] *)
Definition handle_midi_note_off_message (ev : EventTwoBytes) : M unit :=
  DEBUG_TRACE "Note Off %1 (velocity %2)\n" [note_number ev; velocity ev].

(** [LaunchPadPro::handle_midi_note_on_message] *)
Definition handle_midi_note_on_message (ev : EventTwoBytes) : M unit :=
  if bool_decide (velocity ev = 0) then
    handle_midi_note_off_message ev
  else
    DEBUG_TRACE "Note On %1/0x%3%4%5 (velocity %2)\n"
                [note_number ev; velocity ev; note_number ev];;
    lp ← this;
    coord ← defined (note_to_xy lp (note_number ev));
    cerr "x: %1 y: %2\n" [coord.1; coord.2].

(** ** The pad map *)

(** [pad_map.insert (p).second], followed by [abort ()] when the key is
    already there: [None] is the aborted process. *)
Definition insert_or_abort (m : gmap Z Pad) (p : Z * Pad) : option (gmap Z Pad) :=
  match m !! p.1 with
  | Some _ => None
  | None => Some (<[p.1 := p.2]> m)
  end.

(** The edge pads in the order [build_pad_map] registers them. *)
Definition edge_pads : list PadID :=
  [ Shift;
    Left; Right; Session; Note; Chord; Custom; Sequencer; Projects;
    Patterns; Steps; PatternSettings; Velocity; Probability; Mutation;
    MicroStep; PrintToClip;
    StopClip; Device; Sends; Pan; Volume; Solo; Mute; RecordArm;
    CaptureMIDI; Play; FixedLength; Quantize; Duplicate; Clear; Down; Up;
    Lower1; Lower2; Lower3; Lower4; Lower5; Lower6; Lower7; Lower8 ].

(** The iteration space of the grid loops: row outermost, then col. *)
Definition grid_loop : list (Z * Z) :=
  row ← seqZ 0 8; col ← seqZ 0 8; [(row, col)].

(** The pair the body of the grid loops inserts. *)
Definition grid_pad (i : Z * Z) : Z * Pad :=
  let '(row, col) := i in
  let pid := (11 + (row * 10)) + col in
  (pid, Pad_grid pid row col).

Section PadMap.

(** The integer value of each [PadID] enumerator.  The enum is declared in
    lppro.h; its values are a parameter of the development. *)
Variable pad_value : PadID → Z.

(** The macro [EDGE_PAD (id)], as the pair it inserts. *)
Definition EDGE_PAD (id : PadID) : Z * Pad :=
  (pad_value id, Pad_edge (pad_value id)).

(** Every pair [build_pad_map] inserts, in program order. *)
Definition registrations : list (Z * Pad) :=
  (EDGE_PAD <$> edge_pads) ++ (grid_pad <$> grid_loop).

(** [LaunchPadPro::build_pad_map] on the member [pad_map]; [None] when the
    process aborts, at a duplicate insertion or at the final [assert]. *)
Definition build_pad_map (m : gmap Z Pad) : option (gmap Z Pad) :=
  m ← run_loop insert_or_abort (EDGE_PAD <$> edge_pads) m;
  m ← run_loop insert_or_abort (grid_pad <$> grid_loop) m;
  if bool_decide (size m = (64 + (5 * 8) + 1)%nat) then Some m else None.

End PadMap.

(** One assignment of [PadID] values for which the pad map can be built.
    It continues the numbering of the grid, where row r, column c is pad
    11 + 10 r + c: the edge pads fill the ring around the grid (rows and
    columns 0 and 9) and a further row (0x65 to 0x6c). *)
Definition device_pad_value (id : PadID) : Z :=
  match id with
  | Shift => 0x5a | Left => 0x5b | Right => 0x5c | Session => 0x5d
  | Note => 0x5e | Chord => 0x5f | Custom => 0x60 | Sequencer => 0x61
  | Projects => 0x62
  | Patterns => 0x59 | Steps => 0x4f | PatternSettings => 0x45
  | Velocity => 0x3b | Probability => 0x31 | Mutation => 0x27
  | MicroStep => 0x1d | PrintToClip => 0x13
  | StopClip => 0x8 | Device => 0x7 | Sends => 0x6 | Pan => 0x5
  | Volume => 0x4 | Solo => 0x3 | Mute => 0x2 | RecordArm => 0x1
  | CaptureMIDI => 0xa | Play => 0x14 | FixedLength => 0x1e
  | Quantize => 0x28 | Duplicate => 0x32 | Clear => 0x3c | Down => 0x46
  | Up => 0x50
  | Lower1 => 0x65 | Lower2 => 0x66 | Lower3 => 0x67 | Lower4 => 0x68
  | Lower5 => 0x69 | Lower6 => 0x6a | Lower7 => 0x6b | Lower8 => 0x6c
  end.

(** ** The constructed driver *)

(** The part of the constructor that fills the members: [_current_layout
    (SessionLayout)] in the initialiser list, then [build_pad_map ()] and
    [build_layout_maps ()] on the empty containers. *)
Definition construct (pad_value : PadID → Z) : option LaunchPadPro :=
  pm ← build_pad_map pad_value ∅;
  build_layout_maps (mkLaunchPadPro SessionLayout pm [] []).

(** The layout tables are filled once, by the constructor, and no member
    function changes them afterwards: a driver in use carries the tables
    the constructor built, whatever its current layout and pad states. *)
Definition tables_built (lp : LaunchPadPro) : Prop :=
  build_layout_maps_from maps [] [] =
    Some (layout_xy_note_map lp, layout_note_xy_map lp).

(** The forward lookup, [layout_xy_note_map[xy_note_index (layout, col, row)]],
    for the current layout.  A grid position is populated when this read
    finds a note. *)
Definition note_of (lp : LaunchPadPro) (col row : Z) : option Z :=
  vec_get (layout_xy_note_map lp)
          (xy_note_index (layout_value (_current_layout lp)) col row).

(** No grid position of the current layout carries [note]. *)
Definition unpopulated (lp : LaunchPadPro) (note : Z) : Prop :=
  ∀ col row, 0 ≤ col ≤ 7 → 0 ≤ row ≤ 7 → note_of lp col row ≠ Some note.

(** The driver the constructor leaves for the sample pad values, in the
    Session layout. *)
Definition session_driver : LaunchPadPro :=
  Eval vm_compute in
    default (mkLaunchPadPro SessionLayout ∅ [] []) (construct device_pad_value).

(** What the inverse table holds for [note]: a coordinate whose forward
    entry is [note], or the untouched zero that [resize] put there. *)
Definition inverse_entry_ok (lp : LaunchPadPro) (note : Z) : bool :=
  match note_to_xy lp note with
  | Some (col, row) =>
      bool_decide (col = 0 ∧ row = 0)
      || bool_decide (0 ≤ col ≤ 7 ∧ 0 ≤ row ≤ 7 ∧ note_of lp col row = Some note)
  | None => false
  end.

(** Replaces a driver whose tables were built by its components, with the
    two tables as the lists the constructor computes. *)
Ltac built lp H :=
  destruct lp as [L pm xy nxy]; unfold tables_built in H; simpl in H;
  vm_compute in H; injection H as <- <-.

(** Splits a coordinate bounded by 0 and 7 into its eight values. *)
Ltac coordinate c H :=
  let E := fresh in
  assert (E : c = 0 ∨ c = 1 ∨ c = 2 ∨ c = 3 ∨ c = 4 ∨ c = 5 ∨ c = 6 ∨ c = 7)
    by lia;
  clear H; destruct E as [->|[->|[->|[->|[->|[->|[->| ->]]]]]]].

(** ** Further operations *)

(** [LaunchPadPro::all_pads_on] *)
Definition all_pads_on (color : Z) : M unit :=
  let msg := sysex_header in
  let msg := msg <<< 0xe in
  let msg := msg <<< Z.land color 0x7f in
  let msg := msg <<< 0xf7 in
  daw_write msg.

(** [LaunchPadPro::set_layout].  The line on [std::cerr] shows the layout
    and the message. *)
Definition set_layout (l : Layout) (page : Z) : M unit :=
  let msg := sysex_header in
  let msg := msg <<< 0x0 in
  let msg := msg <<< layout_value l in
  let msg := msg <<< page in
  let msg := msg <<< 0x0 in
  let msg := msg <<< 0xf7 in
  cerr "switch to layout %1 using %2\n" (layout_value l :: msg);;
  daw_write msg.

(** [LaunchPadPro::handle_midi_controller_message].  In
    [MIDI::EventTwoBytes] the controller number shares its byte with the
    note number and the value shares its byte with the velocity. *)
Definition handle_midi_controller_message (ev : EventTwoBytes) : M unit :=
  DEBUG_TRACE "CC %1 (value %2)\n" [note_number ev; velocity ev].

(** [LaunchPadPro::pad_by_id]; [None] is [nullptr]. *)
Definition pad_by_id (lp : LaunchPadPro) (pid : Z) : option Pad :=
  pad_map lp !! pid.

(** Assignment through the pointer [pad_by_id] returns: the record stored
    under [pid] becomes [pad]. *)
Definition store_pad (pid : Z) (pad : Pad) : M unit := λ lp,
  Some (tt, mkLaunchPadPro (_current_layout lp) (<[pid := pad]> (pad_map lp))
                           (layout_xy_note_map lp) (layout_note_xy_map lp), []).

(** The calls a host makes on a driver in use. *)
Inductive call : Type :=
| call_all_pads_off
| call_all_pads_on (color : Z)
| call_set_layout (l : Layout) (page : Z)
| call_set_device_mode (m : DeviceMode)
| call_scroll_text (txt : string) (color : Z) (loop : bool) (speed : Q)
| call_light_pad (pid color : Z) (mode : ColorMode)
| call_pad_off (pid : Z)
| call_sysex (raw_bytes : list Z)
| call_note_on (ev : EventTwoBytes)
| call_note_off (ev : EventTwoBytes)
| call_controller (ev : EventTwoBytes).

Definition is_call_sysex (c : call) : bool :=
  match c with call_sysex _ => true | _ => false end.

Section PadOps.

(** [Pad::set (color, mode)] and [Pad::state_msg ()] are defined in lppro.h;
    they are parameters of the development. *)
Variable Pad_set : Z → ColorMode → Pad → Pad.
Variable state_msg : Pad → MidiByteArray.

(** [LaunchPadPro::light_pad]; [pid] is the parameter [pad_id]. *)
Definition light_pad (pid color : Z) (mode : ColorMode) : M unit :=
  lp ← this;
  match pad_by_id lp pid with
  | None => mret tt
  | Some pad =>
      let pad := Pad_set color mode pad in
      store_pad pid pad;;
      daw_write (state_msg pad)
  end.

(** [LaunchPadPro::pad_off] *)
Definition pad_off (pid : Z) : M unit :=
  lp ← this;
  match pad_by_id lp pid with
  | None => mret tt
  | Some pad =>
      let pad := Pad_set 0 Static pad in
      store_pad pid pad;;
      daw_write (state_msg pad)
  end.

Definition run_call (c : call) : M unit :=
  match c with
  | call_all_pads_off => all_pads_off
  | call_all_pads_on color => all_pads_on color
  | call_set_layout l page => set_layout l page
  | call_set_device_mode m => set_device_mode m
  | call_scroll_text txt color loop speed => scroll_text txt color loop speed
  | call_light_pad pid color mode => light_pad pid color mode
  | call_pad_off pid => pad_off pid
  | call_sysex raw_bytes => handle_midi_sysex raw_bytes
  | call_note_on ev => handle_midi_note_on_message ev
  | call_note_off ev => handle_midi_note_off_message ev
  | call_controller ev => handle_midi_controller_message ev
  end.

(** A sequence of calls, one after the other. *)
Fixpoint run_calls (cs : list call) : M unit :=
  match cs with
  | [] => mret tt
  | c :: cs => run_call c;; run_calls cs
  end.

End PadOps.

(** ** Stripable slots *)

(** The members [get_stripable_slot] reads: the two scroll offsets and the
    slots, a column of rows of pairs. *)
Record SlotGrid : Type := mkSlotGrid {
  scroll_x_offset : Z;
  scroll_y_offset : Z;
  stripable_slots : list (list (Z * Z))
}.

(** Conversion of an [int] to the unsigned [size_type] of a vector, [w] bits
    wide. *)
Definition size_type (w : Z) (z : Z) : Z := z mod 2 ^ w.

(** [LaunchPadPro::get_stripable_slot].  The sums stay inside the [int]
    range for the coordinates and offsets of a pad grid. *)
Definition get_stripable_slot (w : Z) (g : SlotGrid) (x y : Z) : option (Z * Z) :=
  let x := x + scroll_x_offset g in
  let y := y + scroll_y_offset g in
  if bool_decide (size_type w x > Z.of_nat (length (stripable_slots g)))
  then Some (-1, -1) else
  row ← stripable_slots g !! Z.to_nat (size_type w x);
  if bool_decide (size_type w y > Z.of_nat (length row))
  then Some (-1, -1) else
  row !! Z.to_nat (size_type w y).

(** ** Table data *)

(** A table has eight rows of eight notes, each a MIDI note number. *)
Definition table_ok (t : XY_Note_Map) : Prop :=
  length t = 8%nat ∧
  Forall (λ row, length row = 8%nat ∧ Forall (λ note, 0 ≤ note ≤ 127) row) t.

(** Both loop bodies of [build_layout_maps] have one shape: an index and a
    value computed from the loop variables, then one write. *)
Definition write_step {I : Type} (f : I → option (Z * Z)) (v : list Z) (i : I)
    : option (list Z) :=
  p ← f i; vec_set v p.1 p.2.

(** The write of the first loop nest. *)
Definition forward_write (ms : list XY_Note_Map) (i : nat * nat * nat)
    : option (Z * Z) :=
  let '(layout, row, col) := i in
  note ← maps_at ms layout row col;
  Some (xy_note_index (Z.of_nat layout) (Z.of_nat col) (Z.of_nat row), note).

(** The write of the second loop nest. *)
Definition inverse_write (xy : list Z) (i : nat * nat * nat) : option (Z * Z) :=
  let '(layout, row, col) := i in
  note ← vec_get xy (xy_note_index (Z.of_nat layout) (Z.of_nat col) (Z.of_nat row));
  Some (note_xy_index (Z.of_nat layout) note, Z.of_nat row * 8 + Z.of_nat col).

(** Closes a goal about a call that left the driver [lp] as it was. *)
Ltac unchanged lp :=
  exists lp; eexists;
  split; [reflexivity|]; split; [reflexivity|]; split; [reflexivity|];
  split; [reflexivity|]; split; [reflexivity|by left].

(** The ids the grid loops of [build_pad_map] compute. *)
Definition grid_id (v : Z) : Prop :=
  ∃ row col, 0 ≤ row < 8 ∧ 0 ≤ col < 8 ∧ v = (11 + (row * 10)) + col.

(** What no call on a driver in use changes: the two layout tables and the
    set of registered pad ids. *)
Definition same_build (lp lp' : LaunchPadPro) : Prop :=
  layout_xy_note_map lp' = layout_xy_note_map lp ∧
  layout_note_xy_map lp' = layout_note_xy_map lp ∧
  dom (pad_map lp') = dom (pad_map lp).

(** [same_build], and the current layout as well. *)
Definition same_layout (lp lp' : LaunchPadPro) : Prop :=
  same_build lp lp' ∧ _current_layout lp' = _current_layout lp.

(** Every completed run of [m] relates the driver before to the driver
    after by [R]. *)
Definition keeps {A} (R : LaunchPadPro → LaunchPadPro → Prop) (m : M A) : Prop :=
  ∀ lp a lp' out, m lp = Some (a, lp', out) → R lp lp'.



(** * Properties *)

(** ** Layout tables *)

Lemma tables_built_construct pad_value lp :
  construct pad_value = Some lp → tables_built lp.
Proof.
  unfold construct, build_layout_maps, tables_built.
  intros (pm & _ & H)%bind_Some.
  apply bind_Some in H as ([xy nxy] & H & [= <-]). exact H.
Qed.

Lemma session_driver_constructed :
  construct device_pad_value = Some session_driver.
Proof. vm_compute. reflexivity. Qed.

Lemma session_driver_tables : tables_built session_driver.
Proof. exact (tables_built_construct _ _ session_driver_constructed). Qed.

(** Only the Session table is compiled in: a position of any other layout
    lies beyond the forward table. *)
Lemma note_of_unbuilt_layout lp col row :
  tables_built lp → _current_layout lp ≠ SessionLayout →
  0 ≤ col ≤ 7 → 0 ≤ row ≤ 7 → note_of lp col row = None.
Proof.
  intros Hb HL Hc Hr. built lp Hb. simpl in HL.
  unfold note_of, vec_get, xy_note_index; simpl.
  assert (1 ≤ layout_value L) as Hv.
  { destruct L; simpl; try lia. congruence. }
  rewrite bool_decide_eq_true_2 by lia.
  apply lookup_ge_None_2. simpl. lia.
Qed.

(** Every position of the Session grid is populated. *)
Lemma note_of_session_populated lp col row :
  tables_built lp → _current_layout lp = SessionLayout →
  0 ≤ col ≤ 7 → 0 ≤ row ≤ 7 → is_Some (note_of lp col row).
Proof.
  intros Hb HL Hc Hr. built lp Hb. simpl in HL. subst L.
  coordinate col Hc; coordinate row Hr; vm_compute; eauto.
Qed.

Lemma round_trip_session lp col row note :
  tables_built lp → _current_layout lp = SessionLayout →
  0 ≤ col ≤ 7 → 0 ≤ row ≤ 7 →
  note_of lp col row = Some note → note_to_xy lp note = Some (col, row).
Proof.
  intros Hb HL Hc Hr. built lp Hb. simpl in HL. subst L.
  coordinate col Hc; coordinate row Hr; vm_compute;
    intros [= <-]; reflexivity.
Qed.

(** C1. For every layout and every populated grid position (col, row) with
    col and row between 0 and 7, reading the note of the position in the
    forward table and converting that note back with [note_to_xy] gives the
    position again.  In the Session layout every such position is
    populated, and note 0x33 is at (0, 3). *)
Theorem note_to_xy_round_trip (lp : LaunchPadPro) (col row note : Z) :
  tables_built lp →
  0 ≤ col ≤ 7 → 0 ≤ row ≤ 7 →
  note_of lp col row = Some note →
  note_to_xy lp note = Some (col, row) ∧
  (_current_layout lp = SessionLayout →
   note_to_xy lp 0x33 = Some (0, 3) ∧
   ∀ col' row', 0 ≤ col' ≤ 7 → 0 ≤ row' ≤ 7 →
     ∃ note', note_of lp col' row' = Some note' ∧
              note_to_xy lp note' = Some (col', row')).
Proof.
  intros Hb Hc Hr Hn. split.
  - destruct (decide (_current_layout lp = SessionLayout)) as [HL|HL].
    + by apply round_trip_session.
    + rewrite note_of_unbuilt_layout in Hn by done. discriminate.
  - intros HL. split.
    + apply round_trip_session; [exact Hb|exact HL|lia|lia|].
      built lp Hb. simpl in HL. subst L. reflexivity.
    + intros col' row' Hc' Hr'.
      destruct (note_of_session_populated lp col' row' Hb HL Hc' Hr')
        as [note' Hn'].
      exists note'. split; [exact Hn'|]. by apply round_trip_session.
Qed.

Lemma note_to_xy_round_trip_witness :
  note_of session_driver 0 3 = Some 0x33 ∧
  note_to_xy session_driver 0x33 = Some (0, 3).
Proof.
  split; [reflexivity|].
  refine (proj1 (note_to_xy_round_trip session_driver 0 3 0x33 _ _ _ _)).
  - vm_compute. reflexivity.
  - lia.
  - lia.
  - reflexivity.
Defined.

(** C2. The forward index is [layout * 64 + row * 8 + col].  The inverse
    index is [layout * 127 + note]: it is [layout * 128 + note] for layout 0
    only, and at layout 1, note 0 it is 127, the slot of layout 0, note 127,
    where the claimed scheme gives 128. *)
Theorem note_xy_index_stride :
  (∀ layout col row, xy_note_index layout col row = layout * 64 + row * 8 + col) ∧
  (∀ layout note, note_xy_index layout note = layout * 128 + note ↔ layout = 0) ∧
  note_xy_index 1 0 = 127 ∧
  note_xy_index 1 0 ≠ 1 * 128 + 0 ∧
  note_xy_index 1 0 = note_xy_index 0 127.
Proof.
  unfold xy_note_index, note_xy_index. repeat split; intros; lia.
Qed.

Lemma inverse_entries_session lp :
  tables_built lp → _current_layout lp = SessionLayout →
  forallb (inverse_entry_ok lp) (seqZ 0 128) = true.
Proof.
  intros Hb HL. built lp Hb. simpl in HL. subst L. vm_compute. reflexivity.
Qed.

Lemma unpopulated_session_0 lp :
  tables_built lp → _current_layout lp = SessionLayout → unpopulated lp 0.
Proof.
  intros Hb HL col row Hc Hr. built lp Hb. simpl in HL. subst L.
  coordinate col Hc; coordinate row Hr; vm_compute; discriminate.
Qed.

(** In a layout other than Session the read of the inverse table starts at
    slot 127: it finds the zero in the last slot for note 0 of [Fader], and
    falls outside the table for every other note. *)
Lemma note_to_xy_unbuilt_layout lp note :
  tables_built lp → _current_layout lp ≠ SessionLayout → 0 ≤ note ≤ 127 →
  note_to_xy lp note =
    if bool_decide (_current_layout lp = Fader ∧ note = 0)
    then Some (0, 0) else None.
Proof.
  intros Hb HL Hn. built lp Hb. simpl in HL. simpl _current_layout.
  unfold note_to_xy, vec_get, note_xy_index. simpl layout_note_xy_map.
  simpl _current_layout.
  rewrite (bool_decide_eq_true_2 (0 ≤ _)) by (destruct L; simpl; lia).
  case_bool_decide as HF.
  - destruct HF as [-> ->]. reflexivity.
  - rewrite (lookup_ge_None_2 _ _); [reflexivity|]. simpl length.
    destruct L; simpl layout_value; try lia; [congruence|].
    destruct (decide (note = 0)) as [->|]; [tauto|lia].
Qed.

(** C3, as claimed, fails: note 0 is on no grid position of the Session
    layout, and [note_to_xy] answers with the coordinate (0, 0). *)
Lemma note_to_xy_unpopulated_counterexample :
  construct device_pad_value = Some session_driver ∧
  _current_layout session_driver = SessionLayout ∧
  unpopulated session_driver 0 ∧
  note_to_xy session_driver 0 = Some (0, 0).
Proof.
  split; [exact session_driver_constructed|]. split; [reflexivity|]. split.
  - apply unpopulated_session_0; [exact session_driver_tables|reflexivity].
  - reflexivity.
Qed.

(** C3, amended. In the Session layout, the one layout whose table is
    compiled in, for every note number from 0 to 127 that no grid position
    carries, [note_to_xy] returns the coordinate (0, 0): the inverse table
    has no entry that stands for an absent coordinate. *)
Theorem note_to_xy_unpopulated (lp : LaunchPadPro) (note : Z) :
  tables_built lp → _current_layout lp = SessionLayout →
  0 ≤ note ≤ 127 →
  unpopulated lp note →
  note_to_xy lp note = Some (0, 0).
Proof.
  intros Hb HL Hn Hu.
  pose proof (inverse_entries_session lp Hb HL) as Hall.
  rewrite forallb_forall in Hall.
  specialize (Hall note). unfold inverse_entry_ok in Hall.
  destruct (note_to_xy lp note) as [[col row]|].
  - rewrite orb_true_iff, !bool_decide_eq_true in Hall.
    destruct Hall as [[-> ->]|(Hc & Hr & Hp)].
    + apply list_elem_of_In, elem_of_seqZ. lia.
    + reflexivity.
    + exfalso. by apply (Hu col row).
  - discriminate Hall. apply list_elem_of_In, elem_of_seqZ. lia.
Qed.

Lemma note_to_xy_unpopulated_witness :
  note_to_xy session_driver 0 = Some (0, 0).
Proof.
  apply (note_to_xy_unpopulated session_driver 0).
  - vm_compute. reflexivity.
  - reflexivity.
  - lia.
  - apply unpopulated_session_0; [vm_compute|]; reflexivity.
Defined.

(** ** Device mode *)

(** C4. Entering standalone mode writes the "return to live" message
    (header, 0x0E, 0x00, 0xF7), then sleeps 100000 microseconds, which is
    no less than 100 ms, then writes the "disable DAW mode" message (header,
    0x10, 0x00, 0xF7).  Nothing else reaches the device: the one other
    effect is a line on the diagnostic stream.  The driver object is left
    as it was. *)
Theorem set_device_mode_Standalone (lp : LaunchPadPro) :
  set_device_mode Standalone lp =
    Some (tt, lp,
          [ Cerr "entering standalone mode\n" [];
            PortWrite (sysex_header ++ [0x0E; 0x00] ++ [0xF7]);
            USleep 100000;
            PortWrite (sysex_header ++ [0x10; 0x00] ++ [0xF7]) ]) ∧
  (∃ usecs,
     filter (λ e, is_diagnostic e = false)
            (effects_of (set_device_mode Standalone lp)) =
       [ PortWrite (sysex_header ++ [0x0E; 0x00] ++ [0xF7]);
         USleep usecs;
         PortWrite (sysex_header ++ [0x10; 0x00] ++ [0xF7]) ] ∧
     100 * 1000 ≤ usecs).
Proof.
  split; [reflexivity|]. exists 100000. split; [reflexivity|lia].
Qed.

(** ** Bulk clear *)

(** C10. [all_pads_off] sends one message, the same for every driver state:
    the header, 0x03, the triple (0x00, n, 13) for n from 1 to 31, and 0xF7.
    The driver object after the call is the object before it, so every pad
    record keeps its colour and colour mode. *)
Theorem all_pads_off_fixed_message (lp : LaunchPadPro) :
  all_pads_off lp =
    Some (tt, lp,
          [ DawWrite (sysex_header ++ [0x03]
                      ++ concat ((λ n, [0x00; n; 13]) <$> seqZ 1 31)
                      ++ [0xF7]) ]) ∧
  (∀ lp', effects_of (all_pads_off lp') = effects_of (all_pads_off lp)) ∧
  pad_map <$> state_after (all_pads_off lp) = Some (pad_map lp).
Proof.
  repeat split; reflexivity.
Qed.

(** ** Scrolling text *)





(** C6. The text bytes are masked with 0xf7, not with 0x7f: for the text
    "h" (0x68) the message carries 0x60, where the 7-bit mask leaves 0x68,
    and the character with code 255 becomes 0xf7.  The second message, sent
    when the speed is not zero, carries floor (1 + speed * 6), 7 for speed
    1, in place of the first text byte; with an empty text the write of its
    terminator falls outside the message. *)
Theorem scroll_text_mask (lp : LaunchPadPro) (color : Z) (loop : bool) :
  scroll_text "h" color loop 0 lp =
    Some (tt, lp,
          [ DawWrite (sysex_header
                      ++ [0x32; to_byte color; if loop then 1 else 0; 0x60]
                      ++ [0xF7]) ]) ∧
  Z.land (char_code "h") 0x7F = 0x68 ∧
  Z.land (char_code "255") 0xf7 = 0xf7 ∧
  effects_of (scroll_text "h" color loop 1 lp) =
    [ DawWrite (sysex_header
                ++ [0x32; to_byte color; if loop then 1 else 0; 0x60]
                ++ [0xF7]);
      DawWrite (sysex_header
                ++ [0x32; to_byte color; if loop then 1 else 0; 7]
                ++ [0xF7]) ] ∧
  scroll_text "" color loop 1 lp = None.
Proof.
  repeat split; destruct loop; reflexivity.
Qed.

(** ** Inbound SysEx *)

Lemma AllLayouts_value (l : Layout) :
  AllLayouts !! Z.to_nat (layout_value l) = Some l.
Proof. destruct l; reflexivity. Qed.

Lemma AllLayouts_lookup (idx : Z) :
  0 ≤ idx < 20 → ∃ l, AllLayouts !! Z.to_nat idx = Some l ∧ layout_value l = idx.
Proof.
  intros H.
  destruct (lookup_lt_is_Some_2 AllLayouts (Z.to_nat idx)) as [l Hl].
  { simpl. lia. }
  exists l. split; [exact Hl|].
  assert (Hv : Z.to_nat idx = Z.to_nat (layout_value l)).
  { eapply NoDup_lookup; [|exact Hl|apply AllLayouts_value].
    apply (bool_decide_unpack (NoDup AllLayouts)). vm_compute. exact I. }
  symmetry. apply Z2Nat.inj; [lia|by destruct l|exact Hv].
Qed.

(** A layout-info response: what the handler does with the index byte. *)
Lemma handle_midi_sysex_layout_info lp idx rest :
  handle_midi_sysex (sysex_header ++ [0x00; idx] ++ rest) lp =
    let sz := Z.of_nat (length (sysex_header ++ [0x00; idx] ++ rest)) in
    if bool_decide (idx < 20) then
      match (if bool_decide (0 ≤ idx) then AllLayouts !! Z.to_nat idx else None) with
      | Some l =>
          Some (tt, with_layout lp l,
                [ DebugTrace "Sysex, %1 bytes\n" [sz];
                  Cerr "Current layout = %1\n" [layout_value l] ])
      | None => None
      end
    else
      Some (tt, lp,
            [ DebugTrace "Sysex, %1 bytes\n" [sz];
              Cerr "ignore illegal layout index %1\n" [idx] ]).
Proof.
  unfold handle_midi_sysex.
  set (raw := sysex_header ++ [0x00; idx] ++ rest).
  assert (Hlen : Z.of_nat (length raw) = 8 + Z.of_nat (length rest)).
  { unfold raw. rewrite !length_app. simpl. lia. }
  assert (Hdrop : drop (length sysex_header) raw = [0x00; idx] ++ rest).
  { unfold raw. by rewrite drop_app_length. }
  rewrite Hdrop. cbv zeta.
  unfold mbind, M_mbind, M_bind, DEBUG_TRACE, emit, mret, M_mret, M_ret.
  rewrite !bool_decide_eq_false_2 by (simpl length; lia).
  change (Z.of_nat (length AllLayouts)) with 20.
  cbn [defined vec_get app bool_decide decide_rel]. simpl.
  destruct (bool_decide (idx < 20)); [|reflexivity].
  destruct (bool_decide (0 ≤ idx)); [|reflexivity].
  destruct (AllLayouts !! Z.to_nat idx); reflexivity.
Qed.

(** C5, as claimed, fails: on the layout-info response with index 2 the
    handler sets the current layout to [ChordLayout], and all it produces
    besides is a debug trace line and a line on [std::cerr]; no notification
    leaves the handler. *)
Lemma handle_midi_sysex_no_notification :
  handle_midi_sysex [0xF0; 0x00; 0x20; 0x29; 0x02; 0x0E; 0x00; 0x02; 0xF7]
                    session_driver =
    Some (tt, with_layout session_driver ChordLayout,
          [ DebugTrace "Sysex, %1 bytes\n" [9];
            Cerr "Current layout = %1\n" [2] ]) ∧
  filter (λ e, is_diagnostic e = false)
         (effects_of (handle_midi_sysex
            [0xF0; 0x00; 0x20; 0x29; 0x02; 0x0E; 0x00; 0x02; 0xF7]
            session_driver)) = [].
Proof. split; reflexivity. Qed.

(** C5, amended. For every inbound SysEx that is the header, the command
    byte 0x00 and an index byte (followed by anything): if the index is
    below 20, the number of enumerated layouts, the current layout becomes
    the layout at that index of [AllLayouts] (index 2 selects
    [ChordLayout], the third) and the new layout is printed on [std::cerr];
    if the index is 20 or more, a line is printed on [std::cerr] and the
    driver is left as it was.  In both cases the handler produces nothing
    but diagnostics: no LayoutChanged notification. *)
Theorem handle_midi_sysex_layout_index (lp : LaunchPadPro) (idx : Z) (rest : list Z) :
  0 ≤ idx ≤ 255 →
  let raw := sysex_header ++ [0x00; idx] ++ rest in
  let r := handle_midi_sysex raw lp in
  (idx < 20 →
   ∃ l, AllLayouts !! Z.to_nat idx = Some l ∧
        state_after r = Some (with_layout lp l) ∧
        effects_of r = [ DebugTrace "Sysex, %1 bytes\n" [Z.of_nat (length raw)];
                         Cerr "Current layout = %1\n" [idx] ]) ∧
  (idx = 2 → state_after r = Some (with_layout lp ChordLayout)) ∧
  (20 ≤ idx →
   state_after r = Some lp ∧
   effects_of r = [ DebugTrace "Sysex, %1 bytes\n" [Z.of_nat (length raw)];
                    Cerr "ignore illegal layout index %1\n" [idx] ]) ∧
  filter (λ e, is_diagnostic e = false) (effects_of r) = [].
Proof.
  intros Hidx raw r. unfold r, raw.
  rewrite handle_midi_sysex_layout_info. cbv zeta.
  rewrite (bool_decide_eq_true_2 (0 ≤ idx)) by lia.
  destruct (decide (idx < 20)) as [Hlt|Hge].
  - rewrite bool_decide_eq_true_2 by done.
    destruct (AllLayouts_lookup idx) as (l & Hl & Hv); [lia|].
    rewrite Hl. simpl. rewrite Hv. repeat split.
    + intros _. exists l. done.
    + intros ->. by injection Hl as <-.
    + lia.
    + lia.
  - rewrite bool_decide_eq_false_2 by done. simpl. repeat split; lia.
Qed.

Lemma handle_midi_sysex_layout_index_witness :
  state_after (handle_midi_sysex
                 [0xF0; 0x00; 0x20; 0x29; 0x02; 0x0E; 0x00; 0x02; 0xF7]
                 session_driver)
    = Some (with_layout session_driver ChordLayout).
Proof.
  exact (proj1 (proj2 (handle_midi_sysex_layout_index session_driver 2 [0xF7]
                         ltac:(lia)))
           eq_refl).
Defined.

(** C9, as claimed, fails: on a five-byte SysEx the handler returns at its
    first test; it has no result, and all it produces is the debug trace
    line with the byte count.  Nothing reports a truncated message. *)
Lemma handle_midi_sysex_short_no_error :
  handle_midi_sysex [0xF0; 0x00; 0x20; 0x29; 0x02] session_driver =
    Some (tt, session_driver, [ DebugTrace "Sysex, %1 bytes\n" [5] ]) ∧
  filter (λ e, is_cerr e = true)
         (effects_of (handle_midi_sysex [0xF0; 0x00; 0x20; 0x29; 0x02]
                                        session_driver)) = [].
Proof. split; reflexivity. Qed.

(** C9, amended. For every inbound SysEx shorter than the six-byte header
    plus one command byte, the handler returns at once: the driver object
    is left as it was, and the only effect is the debug trace line with the
    byte count.  No error value is produced and nothing is logged about
    the truncation. *)
Theorem handle_midi_sysex_short (lp : LaunchPadPro) (raw : list Z) :
  Z.of_nat (length raw) < Z.of_nat (length sysex_header) + 1 →
  handle_midi_sysex raw lp =
    Some (tt, lp, [ DebugTrace "Sysex, %1 bytes\n" [Z.of_nat (length raw)] ]).
Proof.
  intros Hshort. unfold handle_midi_sysex. cbv zeta.
  rewrite bool_decide_eq_true_2 by exact Hshort. reflexivity.
Qed.

Lemma handle_midi_sysex_short_witness :
  handle_midi_sysex [0xF0; 0x00; 0x20; 0x29; 0x02] session_driver =
    Some (tt, session_driver, [ DebugTrace "Sysex, %1 bytes\n" [5] ]).
Proof.
  apply (handle_midi_sysex_short session_driver [0xF0; 0x00; 0x20; 0x29; 0x02]).
  simpl. lia.
Defined.

(** ** Notes *)

(** C8. A note-on with velocity zero is handed to the note-off handler:
    for every note, driver state (so every layout) and note-off velocity,
    both calls leave the driver as it was and produce the note-off debug
    trace line and nothing else; the two lines differ in the velocity they
    echo only. *)
Theorem note_on_velocity_zero_is_note_off (lp : LaunchPadPro) (note v : Z) :
  handle_midi_note_on_message (mkEvent note 0) lp =
    handle_midi_note_off_message (mkEvent note 0) lp ∧
  handle_midi_note_on_message (mkEvent note 0) lp =
    Some (tt, lp, [ DebugTrace "Note Off %1 (velocity %2)\n" [note; 0] ]) ∧
  handle_midi_note_off_message (mkEvent note v) lp =
    Some (tt, lp, [ DebugTrace "Note Off %1 (velocity %2)\n" [note; v] ]) ∧
  state_after (handle_midi_note_on_message (mkEvent note 0) lp) =
    state_after (handle_midi_note_off_message (mkEvent note v) lp) ∧
  filter (λ e, is_diagnostic e = false)
         (effects_of (handle_midi_note_on_message (mkEvent note 0) lp)) =
  filter (λ e, is_diagnostic e = false)
         (effects_of (handle_midi_note_off_message (mkEvent note v) lp)).
Proof.
  repeat split; reflexivity.
Qed.

(** ** The pad map *)

Lemma run_loop_app {A I : Type} (body : A → I → option A) (l1 l2 : list I) (a : A) :
  run_loop body (l1 ++ l2) a = run_loop body l1 a ≫= run_loop body l2.
Proof.
  revert a. induction l1 as [|i l1 IH]; intros a; simpl; [reflexivity|].
  destruct (body a i) as [a'|]; simpl; [apply IH|reflexivity].
Qed.

Lemma run_loop_insert_cons k0 p0 (ps : list (Z * Pad)) (m : gmap Z Pad) :
  run_loop insert_or_abort ((k0, p0) :: ps) m =
  match m !! k0 with
  | Some _ => None
  | None => run_loop insert_or_abort ps (<[k0:=p0]> m)
  end.
Proof.
  cbn [run_loop]. generalize (run_loop insert_or_abort ps). intros f.
  unfold insert_or_abort. cbn [fst snd]. destruct (m !! k0); reflexivity.
Qed.

(** A run of insertions goes through exactly when the keys are pairwise
    distinct and new to the map; it then adds every pair. *)
Lemma insert_all_spec (ps : list (Z * Pad)) (m : gmap Z Pad) :
  match run_loop insert_or_abort ps m with
  | Some m' =>
      NoDup ps.*1 ∧ (∀ k, k ∈ ps.*1 → m !! k = None) ∧
      size m' = (size m + length ps)%nat ∧
      (∀ k pad, m' !! k = Some pad ↔ (k, pad) ∈ ps ∨ m !! k = Some pad)
  | None => ¬ (NoDup ps.*1 ∧ ∀ k, k ∈ ps.*1 → m !! k = None)
  end.
Proof.
  revert m. induction ps as [|[k0 p0] ps IH]; intros m.
  - simpl. split; [constructor|]. split; [by intros k ?%elem_of_nil|].
    split; [lia|]. intros k pad. rewrite elem_of_nil. tauto.
  - rewrite run_loop_insert_cons, fmap_cons. cbn [fst length].
    destruct (m !! k0) as [p|] eqn:Hk0.
    { intros [_ Hnew]. specialize (Hnew k0 (list_elem_of_here _ _)). congruence. }
    specialize (IH (<[k0:=p0]> m)).
    destruct (run_loop insert_or_abort ps (<[k0:=p0]> m)) as [m'|].
    + destruct IH as (Hnd & Hnew & Hsize & Hlook).
      assert (Hk0' : k0 ∉ ps.*1).
      { intros Hin. specialize (Hnew k0 Hin). by rewrite lookup_insert_eq in Hnew. }
      split; [by constructor|]. split; [|split].
      * intros k [->|Hin]%elem_of_cons; [exact Hk0|].
        specialize (Hnew k Hin).
        rewrite lookup_insert_ne in Hnew; [exact Hnew|]. by intros ->.
      * rewrite Hsize, map_size_insert_None by exact Hk0. lia.
      * intros k pad. rewrite Hlook, elem_of_cons.
        destruct (decide (k = k0)) as [->|Hne].
        -- rewrite lookup_insert_eq, Hk0. split.
           ++ intros [Hin|[= <-]]; [|by left; left].
              exfalso. apply Hk0'. apply list_elem_of_fmap. by exists (k0, pad).
           ++ intros [[[= <-]|Hin]|?]; [by right| |done].
              exfalso. apply Hk0'. apply list_elem_of_fmap. by exists (k0, pad).
        -- rewrite lookup_insert_ne by done. split.
           ++ intros [?|?]; [by left; right|by right].
           ++ intros [[[= -> _]|?]|?]; [done|by left|by right].
    + intros [Hnd Hnew]. apply IH. apply NoDup_cons in Hnd as [Hk0' Hnd].
      split; [exact Hnd|]. intros k Hin.
      rewrite lookup_insert_ne; [|by intros ->].
      apply Hnew. by right.
Qed.

(** With the device's pad values the pad map is built. *)
Example build_pad_map_device :
  size <$> build_pad_map device_pad_value ∅ = Some 105%nat.
Proof. vm_compute. reflexivity. Qed.

(** C7. Built on the empty map, [build_pad_map] either aborts the process,
    and it does so exactly when two of its registrations share an id, or it
    completes with a map of exactly 105 entries (64 grid pads, 5 groups of
    8 edge pads and the shift pad): one entry for every registration, no
    id registered twice. *)
Theorem build_pad_map_cardinality (pad_value : PadID → Z) :
  length (registrations pad_value) = (64 + 5 * 8 + 1)%nat ∧
  match build_pad_map pad_value ∅ with
  | Some m =>
      size m = 105%nat ∧
      NoDup (registrations pad_value).*1 ∧
      (∀ k pad, m !! k = Some pad ↔ (k, pad) ∈ registrations pad_value)
  | None => ¬ NoDup (registrations pad_value).*1
  end.
Proof.
  split; [reflexivity|].
  unfold build_pad_map.
  pose proof (insert_all_spec (registrations pad_value) ∅) as H.
  unfold registrations in H at 1. rewrite run_loop_app in H.
  destruct (run_loop insert_or_abort (EDGE_PAD pad_value <$> edge_pads) ∅)
    as [m1|]; cbn [mbind option_bind] in *.
  - destruct (run_loop insert_or_abort (grid_pad <$> grid_loop) m1) as [m2|];
      cbn [mbind option_bind] in *.
    + destruct H as (Hnd & _ & Hsize & Hlook).
      rewrite map_size_empty in Hsize.
      change (length (registrations pad_value)) with 105%nat in Hsize.
      rewrite bool_decide_eq_true_2 by exact Hsize.
      split; [exact Hsize|]. split; [exact Hnd|].
      intros k pad. rewrite Hlook, lookup_empty.
      split; [intros [?|?]; [done|discriminate]|by left].
    + intros Hnd. apply H. split; [exact Hnd|]. intros k _. apply lookup_empty.
  - intros Hnd. apply H. split; [exact Hnd|]. intros k _. apply lookup_empty.
Qed.

(** * Further properties *)

(** ** Loops of writes *)

Lemma run_loop_ext {A I : Type} (body1 body2 : A → I → option A) idxs a :
  (∀ a i, body1 a i = body2 a i) →
  run_loop body1 idxs a = run_loop body2 idxs a.
Proof.
  intros Hext. revert a. induction idxs as [|i idxs IH]; intros a; simpl.
  - reflexivity.
  - rewrite Hext. destruct (body2 a i); simpl; [apply IH|reflexivity].
Qed.

Lemma length_vec_resize (n : nat) (v : list Z) : length (vec_resize n v) = n.
Proof.
  unfold vec_resize. rewrite length_app, length_take, length_replicate. lia.
Qed.

Lemma vec_set_Some (v : list Z) (k x : Z) :
  0 ≤ k < Z.of_nat (length v) → vec_set v k x = Some (<[Z.to_nat k := x]> v).
Proof. intros H. unfold vec_set. by rewrite bool_decide_eq_true_2. Qed.

(** A loop of writes that all fall inside the vector goes through; a slot no
    write names keeps its value, and a slot some write names holds the value
    of one of the writes that name it. *)
Lemma run_writes_spec {I : Type} (f : I → option (Z * Z)) (idxs : list I) (v : list Z) :
  (∀ i, i ∈ idxs → ∃ p, f i = Some p ∧ 0 ≤ p.1 < Z.of_nat (length v)) →
  ∃ v', run_loop (write_step f) idxs v = Some v' ∧
        length v' = length v ∧
        (∀ k : nat, (∀ i p, i ∈ idxs → f i = Some p → Z.to_nat p.1 ≠ k) →
                    v' !! k = v !! k) ∧
        (∀ i p, i ∈ idxs → f i = Some p →
           ∃ j q, j ∈ idxs ∧ f j = Some q ∧ q.1 = p.1 ∧
                  v' !! Z.to_nat p.1 = Some q.2).
Proof.
  revert v. induction idxs as [|i0 idxs IH]; intros v Hin.
  - exists v. split; [reflexivity|]. split; [reflexivity|]. split; [done|].
    intros i p Hi. by apply elem_of_nil in Hi.
  - destruct (Hin i0) as (p0 & Hp0 & Hr0); [by left|].
    change (run_loop (write_step f) (i0 :: idxs) v)
      with (write_step f v i0 ≫= run_loop (write_step f) idxs).
    assert (write_step f v i0 = Some (<[Z.to_nat p0.1 := p0.2]> v)) as ->.
    { unfold write_step. rewrite Hp0. cbn [mbind option_bind].
      by apply vec_set_Some. }
    cbn [mbind option_bind].
    destruct (IH (<[Z.to_nat p0.1 := p0.2]> v)) as (v' & Hrun & Hlen & Hkeep & Hput).
    { intros i Hi. destruct (Hin i) as (p & Hp & Hr); [by right|].
      exists p. split; [exact Hp|]. by rewrite length_insert. }
    exists v'. split; [exact Hrun|]. rewrite length_insert in Hlen.
    split; [exact Hlen|]. split.
    + intros k Hk. rewrite Hkeep.
      * apply list_lookup_insert_ne. apply (Hk i0 p0); [by left|exact Hp0].
      * intros i p Hi. apply Hk. by right.
    + intros i p Hi Hp.
      destruct (existsb (λ j, match f j with
                              | Some q => bool_decide (q.1 = p.1)
                              | None => false
                              end) idxs) eqn:Hex.
      * apply existsb_exists in Hex as (j & Hj & Hq).
        apply list_elem_of_In in Hj.
        destruct (f j) as [q|] eqn:Hfj; [|discriminate].
        apply bool_decide_eq_true in Hq.
        destruct (Hput j q Hj Hfj) as (j' & q' & Hj' & Hfj' & Hk' & Hv').
        exists j', q'. split; [by right|]. split; [exact Hfj'|].
        split; [congruence|]. by rewrite <- Hq.
      * assert (Hnone : ∀ j q, j ∈ idxs → f j = Some q → q.1 ≠ p.1).
        { intros j q Hj Hfj Heq.
          apply not_true_iff_false in Hex. apply Hex.
          apply existsb_exists. exists j. split; [by apply list_elem_of_In|].
          rewrite Hfj. by apply bool_decide_eq_true. }
        apply elem_of_cons in Hi as [->|Hi]; [|by destruct (Hnone i p Hi Hp)].
        assert (p = p0) by congruence. subst p.
        exists i0, p0. split; [by left|]. split; [exact Hp0|]. split; [done|].
        rewrite Hkeep.
        -- apply list_lookup_insert_eq. lia.
        -- intros j q Hj Hfj Heq.
           destruct (Hin j) as (q' & Hq' & Hr'); [by right|].
           assert (q' = q) by congruence. subst q'.
           apply (Hnone j q Hj Hfj). lia.
Qed.

(** ** Layout tables, for any table data *)

Lemma elem_of_layout_loop (n l r c : nat) :
  (l, r, c) ∈ layout_loop n ↔ (l < n ∧ r < 8 ∧ c < 8)%nat.
Proof.
  unfold layout_loop. rewrite list_elem_of_bind. split.
  - intros (l' & (r' & (c' & Hc%list_elem_of_singleton & Hc')%list_elem_of_bind & Hr')%list_elem_of_bind & Hl').
    injection Hc as -> -> ->.
    apply elem_of_seq in Hl', Hr', Hc'. lia.
  - intros (Hl & Hr & Hc). exists l. split; [|apply elem_of_seq; lia].
    apply list_elem_of_bind. exists r. split; [|apply elem_of_seq; lia].
    apply list_elem_of_bind. exists c. split; [|apply elem_of_seq; lia].
    by apply list_elem_of_singleton.
Qed.

Lemma maps_at_table_ok (ms : list XY_Note_Map) (l r c : nat) :
  Forall table_ok ms → (l < length ms ∧ r < 8 ∧ c < 8)%nat →
  ∃ note, maps_at ms l r c = Some note ∧ 0 ≤ note ≤ 127.
Proof.
  intros Hok (Hl & Hr & Hc).
  destruct (lookup_lt_is_Some_2 ms l Hl) as [t Ht].
  destruct (Forall_lookup_1 _ _ _ _ Hok Ht) as [Hrows Hrow].
  destruct (lookup_lt_is_Some_2 t r) as [row Hr']; [lia|].
  destruct (Forall_lookup_1 _ _ _ _ Hrow Hr') as [Hcols Hnotes].
  destruct (lookup_lt_is_Some_2 row c) as [note Hc']; [lia|].
  exists note. split.
  - unfold maps_at. by simplify_option_eq.
  - exact (Forall_lookup_1 _ _ _ _ Hnotes Hc').
Qed.

Lemma forward_step_write ms xy i :
  forward_step ms xy i = write_step (forward_write ms) xy i.
Proof.
  destruct i as [[l r] c]. unfold forward_step, write_step, forward_write.
  destruct (maps_at ms l r c); reflexivity.
Qed.

Lemma inverse_step_write xy nxy i :
  inverse_step xy nxy i = write_step (inverse_write xy) nxy i.
Proof.
  destruct i as [[l r] c]. unfold inverse_step, write_step, inverse_write.
  destruct (vec_get xy _); reflexivity.
Qed.

(** The first loop nest: it goes through for any table data and leaves
    every note of every table in its forward slot. *)
Lemma forward_pass (ms : list XY_Note_Map) (xy0 : list Z) :
  Forall table_ok ms →
  ∃ xy, run_loop (forward_step ms) (layout_loop (length ms))
                 (vec_resize (length ms * 64) xy0) = Some xy ∧
        length xy = (length ms * 64)%nat ∧
        ∀ l r c, (l < length ms ∧ r < 8 ∧ c < 8)%nat →
          vec_get xy (xy_note_index (Z.of_nat l) (Z.of_nat c) (Z.of_nat r))
            = maps_at ms l r c.
Proof.
  intros Hok.
  destruct (run_writes_spec (forward_write ms) (layout_loop (length ms))
              (vec_resize (length ms * 64) xy0))
    as (xy & Hrun & Hlen & _ & Hput).
  { intros [[l r] c] Hi%elem_of_layout_loop.
    destruct (maps_at_table_ok ms l r c Hok Hi) as (note & Hn & _).
    eexists. split; [unfold forward_write; rewrite Hn; reflexivity|].
    rewrite length_vec_resize. unfold xy_note_index. simpl. lia. }
  exists xy. split.
  { rewrite <- Hrun. apply run_loop_ext. intros; apply forward_step_write. }
  rewrite length_vec_resize in Hlen. split; [exact Hlen|].
  intros l r c Hi.
  destruct (maps_at_table_ok ms l r c Hok Hi) as (note & Hn & _).
  destruct (Hput (l, r, c) (xy_note_index (Z.of_nat l) (Z.of_nat c) (Z.of_nat r), note))
    as ([[l' r'] c'] & q & Hj & Hq & Hkey & Hv).
  { by apply elem_of_layout_loop. }
  { unfold forward_write. by rewrite Hn. }
  apply elem_of_layout_loop in Hj.
  destruct (maps_at_table_ok ms l' r' c' Hok Hj) as (note' & Hn' & _).
  unfold forward_write in Hq. rewrite Hn' in Hq. injection Hq as <-.
  unfold xy_note_index in Hkey. simpl in Hkey.
  assert (l' = l ∧ r' = r ∧ c' = c) as (-> & -> & ->) by lia.
  unfold vec_get. rewrite bool_decide_eq_true_2 by (unfold xy_note_index; lia).
  simpl in Hv. rewrite Hv, Hn. congruence.
Qed.

(** The second loop nest: it goes through for any table data; a slot of
    the inverse table that no (layout, note) pair names keeps what [resize]
    left there, and the slot of a pair holds a position of a pair that
    shares the slot. *)
Lemma inverse_pass (ms : list XY_Note_Map) (xy nxy0 : list Z) :
  Forall table_ok ms →
  (∀ l r c, (l < length ms ∧ r < 8 ∧ c < 8)%nat →
     vec_get xy (xy_note_index (Z.of_nat l) (Z.of_nat c) (Z.of_nat r))
       = maps_at ms l r c) →
  ∃ nxy, run_loop (inverse_step xy) (layout_loop (length ms))
                  (vec_resize (128 * length ms) nxy0) = Some nxy ∧
         length nxy = (128 * length ms)%nat ∧
         (∀ k : nat,
            (∀ l r c note, (l < length ms ∧ r < 8 ∧ c < 8)%nat →
               maps_at ms l r c = Some note →
               Z.to_nat (note_xy_index (Z.of_nat l) note) ≠ k) →
            nxy !! k = vec_resize (128 * length ms) nxy0 !! k) ∧
         (∀ l r c note, (l < length ms ∧ r < 8 ∧ c < 8)%nat →
            maps_at ms l r c = Some note →
            ∃ l' r' c' note',
              (l' < length ms ∧ r' < 8 ∧ c' < 8)%nat ∧
              maps_at ms l' r' c' = Some note' ∧
              note_xy_index (Z.of_nat l') note' = note_xy_index (Z.of_nat l) note ∧
              vec_get nxy (note_xy_index (Z.of_nat l) note)
                = Some (Z.of_nat r' * 8 + Z.of_nat c')).
Proof.
  intros Hok Hxy.
  assert (Hw : ∀ l r c, (l < length ms ∧ r < 8 ∧ c < 8)%nat →
            ∃ note, maps_at ms l r c = Some note ∧ 0 ≤ note ≤ 127 ∧
                    inverse_write xy (l, r, c)
                      = Some (note_xy_index (Z.of_nat l) note,
                              Z.of_nat r * 8 + Z.of_nat c)).
  { intros l r c Hi.
    destruct (maps_at_table_ok ms l r c Hok Hi) as (note & Hn & Hr).
    exists note. split; [exact Hn|]. split; [exact Hr|].
    unfold inverse_write. rewrite Hxy, Hn by exact Hi. reflexivity. }
  destruct (run_writes_spec (inverse_write xy) (layout_loop (length ms))
              (vec_resize (128 * length ms) nxy0))
    as (nxy & Hrun & Hlen & Hkeep & Hput).
  { intros [[l r] c] Hi%elem_of_layout_loop.
    destruct (Hw l r c Hi) as (note & _ & Hr & Hwr).
    eexists. split; [exact Hwr|].
    rewrite length_vec_resize. unfold note_xy_index. simpl. lia. }
  exists nxy. split.
  { rewrite <- Hrun. apply run_loop_ext. intros; apply inverse_step_write. }
  rewrite length_vec_resize in Hlen. split; [exact Hlen|]. split.
  - intros k Hk. apply Hkeep. intros [[l r] c] p Hi%elem_of_layout_loop Hp.
    destruct (Hw l r c Hi) as (note & Hn & _ & Hwr).
    rewrite Hwr in Hp. injection Hp as <-. simpl. by apply (Hk l r c note).
  - intros l r c note Hi Hn.
    destruct (Hw l r c Hi) as (note0 & Hn0 & Hr & Hwr).
    assert (note0 = note) by congruence. subst note0.
    destruct (Hput (l, r, c) _ ltac:(by apply elem_of_layout_loop) Hwr)
      as ([[l' r'] c'] & q & Hj%elem_of_layout_loop & Hq & Hkey & Hv).
    destruct (Hw l' r' c' Hj) as (note' & Hn' & _ & Hwr').
    rewrite Hwr' in Hq. injection Hq as <-. simpl in Hkey, Hv.
    exists l', r', c', note'. split; [exact Hj|]. split; [exact Hn'|].
    split; [exact Hkey|].
    unfold vec_get.
    rewrite bool_decide_eq_true_2 by (unfold note_xy_index; lia).
    exact Hv.
Qed.

(** What a completed [build_layout_maps] leaves in the two vectors. *)
Lemma build_layout_maps_from_inv (ms : list XY_Note_Map) (xy0 nxy0 xy nxy : list Z) :
  Forall table_ok ms →
  build_layout_maps_from ms xy0 nxy0 = Some (xy, nxy) →
  (∀ l r c, (l < length ms ∧ r < 8 ∧ c < 8)%nat →
     vec_get xy (xy_note_index (Z.of_nat l) (Z.of_nat c) (Z.of_nat r))
       = maps_at ms l r c) ∧
  (∀ k : nat,
     (∀ l r c note, (l < length ms ∧ r < 8 ∧ c < 8)%nat →
        maps_at ms l r c = Some note →
        Z.to_nat (note_xy_index (Z.of_nat l) note) ≠ k) →
     nxy !! k = vec_resize (128 * length ms) nxy0 !! k) ∧
  (∀ l r c note, (l < length ms ∧ r < 8 ∧ c < 8)%nat →
     maps_at ms l r c = Some note →
     ∃ l' r' c' note',
       (l' < length ms ∧ r' < 8 ∧ c' < 8)%nat ∧
       maps_at ms l' r' c' = Some note' ∧
       note_xy_index (Z.of_nat l') note' = note_xy_index (Z.of_nat l) note ∧
       vec_get nxy (note_xy_index (Z.of_nat l) note)
         = Some (Z.of_nat r' * 8 + Z.of_nat c')).
Proof.
  intros Hok Hb.
  destruct (forward_pass ms xy0 Hok) as (xy' & Hf & _ & Hxy).
  destruct (inverse_pass ms xy' nxy0 Hok Hxy) as (nxy' & Hi & _ & Hkeep & Hput).
  unfold build_layout_maps_from in Hb. cbv zeta in Hb. rewrite Hf in Hb.
  cbn [mbind option_bind] in Hb. rewrite Hi in Hb. injection Hb as <- <-.
  split; [exact Hxy|]. split; [exact Hkeep|exact Hput].
Qed.

Lemma vec_resize_nil (n : nat) : vec_resize n [] = replicate n 0.
Proof. unfold vec_resize. rewrite take_nil. simpl. by rewrite Nat.sub_0_r. Qed.

Lemma rem_quot_position (r c : Z) :
  0 ≤ r → 0 ≤ c < 8 → Z.rem (r * 8 + c) 8 = c ∧ Z.quot (r * 8 + c) 8 = r.
Proof.
  intros Hr Hc.
  rewrite Z.rem_mod_nonneg, Z.quot_div_nonneg by lia. split.
  - rewrite Z.add_comm, Z_mod_plus_full. by apply Z.mod_small.
  - rewrite Z.div_add_l by lia. rewrite Z.div_small by lia. lia.
Qed.

(** X1. [build_layout_maps] goes through for any number of tables of MIDI
    notes, whatever the two vectors held before: no write falls outside a
    vector.  The forward table gets 64 slots a layout, the inverse table
    128, and the forward slot of (layout, col, row) holds the note of the
    table at that place. *)
Theorem build_layout_maps_from_forward (ms : list XY_Note_Map) (xy0 nxy0 : list Z) :
  Forall table_ok ms →
  ∃ xy nxy,
    build_layout_maps_from ms xy0 nxy0 = Some (xy, nxy) ∧
    length xy = (64 * length ms)%nat ∧
    length nxy = (128 * length ms)%nat ∧
    ∀ layout row col, (layout < length ms ∧ row < 8 ∧ col < 8)%nat →
      vec_get xy (xy_note_index (Z.of_nat layout) (Z.of_nat col) (Z.of_nat row))
        = maps_at ms layout row col.
Proof.
  intros Hok.
  destruct (forward_pass ms xy0 Hok) as (xy & Hf & Hlx & Hxy).
  destruct (inverse_pass ms xy nxy0 Hok Hxy) as (nxy & Hi & Hln & _).
  exists xy, nxy. split.
  - unfold build_layout_maps_from. cbv zeta. rewrite Hf.
    cbn [mbind option_bind]. rewrite Hi. reflexivity.
  - split; [lia|]. split; [exact Hln|exact Hxy].
Qed.

Lemma build_layout_maps_from_forward_witness :
  ∃ xy nxy,
    build_layout_maps_from maps [] [] = Some (xy, nxy) ∧
    length xy = 64%nat ∧ length nxy = 128%nat.
Proof.
  destruct (build_layout_maps_from_forward maps [] [])
    as (xy & nxy & H & Hx & Hn & _).
  - repeat constructor; lia.
  - exists xy, nxy. split; [exact H|]. split; [exact Hx|exact Hn].
Defined.

(** The forward and inverse reads of a driver in the Session layout whose
    tables were built from the one table [t]. *)
Lemma single_table_reads (t : XY_Note_Map) (lp : LaunchPadPro) :
  table_ok t →
  build_layout_maps_from [t] [] []
    = Some (layout_xy_note_map lp, layout_note_xy_map lp) →
  _current_layout lp = SessionLayout →
  (∀ r c, (r < 8 ∧ c < 8)%nat →
     note_of lp (Z.of_nat c) (Z.of_nat r) = maps_at [t] 0 r c) ∧
  (∀ note, 0 ≤ note ≤ 127 →
     (∀ r c, (r < 8 ∧ c < 8)%nat → maps_at [t] 0 r c ≠ Some note) →
     note_to_xy lp note = Some (0, 0)) ∧
  (∀ r c note, (r < 8 ∧ c < 8)%nat → maps_at [t] 0 r c = Some note →
     0 ≤ note ≤ 127 ∧
     ∃ r' c', (r' < 8 ∧ c' < 8)%nat ∧ maps_at [t] 0 r' c' = Some note ∧
              note_to_xy lp note = Some (Z.of_nat c', Z.of_nat r')).
Proof.
  intros Hok Hb HL.
  assert (Hoks : Forall table_ok [t]) by (by constructor).
  destruct (build_layout_maps_from_inv [t] [] [] _ _ Hoks Hb)
    as (Hxy & Hkeep & Hput).
  unfold note_of, note_to_xy. rewrite HL. cbn [layout_value length] in *.
  split; [|split].
  - intros r c Hi. apply (Hxy 0%nat r c). lia.
  - intros note Hn Habs.
    unfold vec_get, note_xy_index.
    rewrite bool_decide_eq_true_2 by lia.
    rewrite Hkeep.
    + rewrite vec_resize_nil, lookup_replicate_2 by lia. reflexivity.
    + intros l r c note' Hi Hn'.
      assert (l = 0%nat) by lia. subst l.
      destruct (maps_at_table_ok [t] 0 r c Hoks) as (n0 & Hn0 & Hr0); [simpl; lia|].
      assert (n0 = note') by congruence. subst n0.
      unfold note_xy_index. intros Heq.
      apply (Habs r c); [lia|]. rewrite Hn'. f_equal. lia.
  - intros r c note Hi Hn.
    destruct (maps_at_table_ok [t] 0 r c Hoks) as (n0 & Hn0 & Hr0); [simpl; lia|].
    assert (n0 = note) by congruence. subst n0. split; [exact Hr0|].
    destruct (Hput 0%nat r c note ltac:(lia) Hn)
      as (l' & r' & c' & note' & Hi' & Hn' & Hkey & Hv).
    assert (l' = 0%nat) by lia. subst l'.
    assert (note' = note) by (unfold note_xy_index in Hkey; lia). subst note'.
    exists r', c'. split; [lia|]. split; [exact Hn'|].
    change (Z.of_nat 0) with 0 in Hv. rewrite Hv. cbn [mbind option_bind].
    destruct (rem_quot_position (Z.of_nat r') (Z.of_nat c')) as [-> ->];
      [lia|lia|reflexivity].
Qed.

(** X2. For any one table of MIDI notes, in the Session layout: every grid
    position carries a note; [note_to_xy] of that note returns a position
    that carries the same note; and when no note occurs twice in the
    forward table it returns the position itself. *)
Theorem single_table_round_trip (t : XY_Note_Map) (lp : LaunchPadPro) (col row : Z) :
  table_ok t →
  build_layout_maps_from [t] [] []
    = Some (layout_xy_note_map lp, layout_note_xy_map lp) →
  _current_layout lp = SessionLayout →
  0 ≤ col ≤ 7 → 0 ≤ row ≤ 7 →
  ∃ note,
    note_of lp col row = Some note ∧ 0 ≤ note ≤ 127 ∧
    (∃ col' row', 0 ≤ col' ≤ 7 ∧ 0 ≤ row' ≤ 7 ∧
                  note_to_xy lp note = Some (col', row') ∧
                  note_of lp col' row' = Some note) ∧
    (NoDup (layout_xy_note_map lp) → note_to_xy lp note = Some (col, row)).
Proof.
  intros Hok Hb HL Hc Hr.
  destruct (single_table_reads t lp Hok Hb HL) as (Hfwd & _ & Hinv).
  assert (Hi : (Z.to_nat row < 8 ∧ Z.to_nat col < 8)%nat) by lia.
  destruct (maps_at_table_ok [t] 0 (Z.to_nat row) (Z.to_nat col))
    as (note & Hn & Hrange); [by constructor|simpl; lia|].
  pose proof (Hfwd _ _ Hi) as Hof. rewrite !Z2Nat.id in Hof by lia.
  exists note. split; [congruence|]. split; [exact Hrange|].
  destruct (Hinv _ _ note Hi Hn) as (_ & r' & c' & Hi' & Hn' & Hxy).
  pose proof (Hfwd _ _ Hi') as Hof'.
  split.
  - exists (Z.of_nat c'), (Z.of_nat r').
    split; [lia|]. split; [lia|]. split; [exact Hxy|congruence].
  - intros Hnd. rewrite Hxy.
    assert (Hsame : Z.to_nat (xy_note_index 0 (Z.of_nat c') (Z.of_nat r'))
                    = Z.to_nat (xy_note_index 0 col row)).
    { assert (Hslot : ∀ c r, 0 ≤ c → 0 ≤ r → note_of lp c r = Some note →
                layout_xy_note_map lp !! Z.to_nat (xy_note_index 0 c r)
                  = Some note).
      { intros c r Hc0 Hr0. unfold note_of, vec_get. rewrite HL.
        cbn [layout_value].
        by rewrite bool_decide_eq_true_2 by (unfold xy_note_index; lia). }
      apply (NoDup_lookup (layout_xy_note_map lp) _ _ note Hnd).
      - apply Hslot; [lia|lia|congruence].
      - apply Hslot; [lia|lia|congruence]. }
    unfold xy_note_index in Hsame. f_equal. f_equal; lia.
Qed.

Lemma single_table_round_trip_witness :
  ∃ note, note_of session_driver 7 0 = Some note ∧
          note_to_xy session_driver note = Some (7, 0).
Proof.
  destruct (single_table_round_trip
              [ [ 0x51; 0x52; 0x53; 0x54; 0x55; 0x56; 0x57; 0x58 ];
                [ 0x47; 0x48; 0x49; 0x4a; 0x4b; 0x4c; 0x4d; 0x4e ];
                [ 0x3d; 0x3e; 0x3f; 0x40; 0x41; 0x42; 0x43; 0x44 ];
                [ 0x33; 0x34; 0x35; 0x36; 0x37; 0x38; 0x39; 0x3a ];
                [ 0x29; 0x2a; 0x2b; 0x2c; 0x2d; 0x2e; 0x2f; 0x30 ];
                [ 0x1f; 0x20; 0x21; 0x22; 0x23; 0x24; 0x25; 0x26 ];
                [ 0x15; 0x16; 0x17; 0x18; 0x19; 0x1a; 0x1b; 0x1c ];
                [ 0xb;  0xc;  0xe;  0xd;  0xf;  0x10; 0x11; 0x12 ] ]
              session_driver 7 0)
    as (note & Hn & _ & _ & Hrt).
  - repeat constructor; lia.
  - vm_compute. reflexivity.
  - reflexivity.
  - lia.
  - lia.
  - exists note. split; [exact Hn|]. apply Hrt.
    apply (bool_decide_unpack _). vm_compute. exact I.
Defined.

(** X3. For any one table of MIDI notes, in the Session layout, a note
    number from 0 to 127 that no grid position carries reads as the
    coordinate (0, 0): its slot of the inverse table still holds the zero
    that [resize] put there. *)
Theorem single_table_absent_note (t : XY_Note_Map) (lp : LaunchPadPro) (note : Z) :
  table_ok t →
  build_layout_maps_from [t] [] []
    = Some (layout_xy_note_map lp, layout_note_xy_map lp) →
  _current_layout lp = SessionLayout →
  0 ≤ note ≤ 127 →
  unpopulated lp note →
  note_to_xy lp note = Some (0, 0).
Proof.
  intros Hok Hb HL Hn Hu.
  destruct (single_table_reads t lp Hok Hb HL) as (Hfwd & Habs & _).
  apply Habs; [exact Hn|]. intros r c Hi Hm.
  apply (Hu (Z.of_nat c) (Z.of_nat r)); [lia|lia|].
  rewrite Hfwd by exact Hi. exact Hm.
Qed.

Lemma single_table_absent_note_witness :
  note_to_xy session_driver 0x5b = Some (0, 0).
Proof.
  apply (single_table_absent_note
              [ [ 0x51; 0x52; 0x53; 0x54; 0x55; 0x56; 0x57; 0x58 ];
                [ 0x47; 0x48; 0x49; 0x4a; 0x4b; 0x4c; 0x4d; 0x4e ];
                [ 0x3d; 0x3e; 0x3f; 0x40; 0x41; 0x42; 0x43; 0x44 ];
                [ 0x33; 0x34; 0x35; 0x36; 0x37; 0x38; 0x39; 0x3a ];
                [ 0x29; 0x2a; 0x2b; 0x2c; 0x2d; 0x2e; 0x2f; 0x30 ];
                [ 0x1f; 0x20; 0x21; 0x22; 0x23; 0x24; 0x25; 0x26 ];
                [ 0x15; 0x16; 0x17; 0x18; 0x19; 0x1a; 0x1b; 0x1c ];
                [ 0xb;  0xc;  0xe;  0xd;  0xf;  0x10; 0x11; 0x12 ] ]
              session_driver 0x5b).
  - repeat constructor; lia.
  - vm_compute. reflexivity.
  - reflexivity.
  - lia.
  - intros col row Hc Hr.
    coordinate col Hc; coordinate row Hr; vm_compute; discriminate.
Defined.

(** ** Inbound SysEx, for any bytes *)

(** The handler reads the length and the bytes at offsets 6 and 7, and
    nothing else. *)
Lemma handle_midi_sysex_reads (raw : list Z) (lp : LaunchPadPro) :
  handle_midi_sysex raw lp =
    let trace := DebugTrace "Sysex, %1 bytes\n" [Z.of_nat (length raw)] in
    match raw !! 6%nat, raw !! 7%nat with
    | Some 0, Some idx =>
        if bool_decide (idx < 20) then
          match (if bool_decide (0 ≤ idx) then AllLayouts !! Z.to_nat idx else None) with
          | Some l =>
              Some (tt, with_layout lp l,
                    [ trace; Cerr "Current layout = %1\n" [layout_value l] ])
          | None => None
          end
        else
          Some (tt, lp, [ trace; Cerr "ignore illegal layout index %1\n" [idx] ])
    | _, _ => Some (tt, lp, [ trace ])
    end.
Proof.
  unfold handle_midi_sysex. cbv zeta.
  change (Z.of_nat (length sysex_header)) with 6.
  change (length sysex_header) with 6%nat.
  change (Z.of_nat (length AllLayouts)) with 20.
  unfold mbind, M_mbind, M_bind, DEBUG_TRACE, emit, mret, M_mret, M_ret,
    defined, vec_get, cerr, set_current_layout.
  rewrite !(bool_decide_eq_true_2 (0 ≤ _)) by lia.
  rewrite !lookup_drop. change (6 + Z.to_nat 0)%nat with 6%nat.
  change (6 + Z.to_nat 1)%nat with 7%nat.
  destruct (raw !! 6%nat) as [b0|] eqn:H6.
  - apply lookup_lt_Some in H6.
    rewrite bool_decide_eq_false_2 by lia.
    destruct (raw !! 7%nat) as [b1|] eqn:H7.
    + apply lookup_lt_Some in H7.
      destruct b0 as [|b0|b0]; [|reflexivity|reflexivity].
      rewrite bool_decide_eq_false_2 by lia.
      destruct (bool_decide (b1 < 20)); [|reflexivity].
      destruct (bool_decide (0 ≤ b1)); [|reflexivity].
      destruct (AllLayouts !! Z.to_nat b1); reflexivity.
    + apply lookup_ge_None in H7.
      destruct b0 as [|b0|b0]; [|reflexivity|reflexivity].
      rewrite bool_decide_eq_true_2 by lia. reflexivity.
  - apply lookup_ge_None in H6.
    rewrite bool_decide_eq_true_2 by lia. reflexivity.
Qed.

(** X4. For every sequence of bytes the SysEx handler returns: it reads
    nothing outside the message or [AllLayouts].  It writes nothing to the
    device, and the only member it can change is the current layout, which
    it changes only when the byte at offset 6 is 0x00 and the byte at offset
    7 is below 20. *)
Theorem handle_midi_sysex_total (raw : list Z) (lp : LaunchPadPro) :
  Forall (λ b, 0 ≤ b ≤ 255) raw →
  ∃ lp' out,
    handle_midi_sysex raw lp = Some (tt, lp', out) ∧
    filter (λ e, is_diagnostic e = false) out = [] ∧
    pad_map lp' = pad_map lp ∧
    layout_xy_note_map lp' = layout_xy_note_map lp ∧
    layout_note_xy_map lp' = layout_note_xy_map lp ∧
    (lp' = lp ∨
     ∃ idx l, raw !! 6%nat = Some 0 ∧ raw !! 7%nat = Some idx ∧ idx < 20 ∧
              AllLayouts !! Z.to_nat idx = Some l ∧ lp' = with_layout lp l).
Proof.
  intros Hbytes. rewrite handle_midi_sysex_reads. cbv zeta.
  destruct (raw !! 6%nat) as [b0|] eqn:H6; [|unchanged lp].
  destruct b0 as [|b0|b0];
    [|destruct (raw !! 7%nat); unchanged lp..].
  destruct (raw !! 7%nat) as [idx|] eqn:H7; [|unchanged lp].
  pose proof (Forall_lookup_1 _ _ _ _ Hbytes H7) as Hidx. simpl in Hidx.
  rewrite (bool_decide_eq_true_2 (0 ≤ idx)) by lia.
  case_bool_decide as Hlt; [|unchanged lp].
  destruct (AllLayouts_lookup idx) as (l & Hl & _); [lia|].
  rewrite Hl. exists (with_layout lp l). eexists.
  split; [reflexivity|]. split; [reflexivity|]. split; [reflexivity|].
  split; [reflexivity|]. split; [reflexivity|].
  right. exists idx, l. done.
Qed.

Lemma handle_midi_sysex_total_witness :
  ∃ lp' out,
    handle_midi_sysex [0xF0; 0x7E; 0x00; 0x06; 0x02; 0x00; 0x20; 0x29; 0xF7]
                      session_driver = Some (tt, lp', out) ∧
    pad_map lp' = pad_map session_driver.
Proof.
  destruct (handle_midi_sysex_total
              [0xF0; 0x7E; 0x00; 0x06; 0x02; 0x00; 0x20; 0x29; 0xF7]
              session_driver)
    as (lp' & out & H & _ & Hp & _).
  - repeat constructor; lia.
  - exists lp', out. split; [exact H|exact Hp].
Defined.

(** X5. The SysEx handler does not look at the first six bytes: a message
    with any six bytes in place of the Novation header is handled as the
    message with the header. *)
Theorem handle_midi_sysex_header_unchecked (h body : list Z) (lp : LaunchPadPro) :
  length h = 6%nat →
  handle_midi_sysex (h ++ body) lp = handle_midi_sysex (sysex_header ++ body) lp.
Proof.
  intros Hh. rewrite !handle_midi_sysex_reads. cbv zeta.
  rewrite !length_app, Hh.
  change (length sysex_header) with 6%nat.
  rewrite !(lookup_app_r h), !(lookup_app_r sysex_header)
    by (rewrite ?Hh; simpl; lia).
  rewrite Hh. reflexivity.
Qed.

Lemma handle_midi_sysex_header_unchecked_witness :
  state_after (handle_midi_sysex [0; 0; 0; 0; 0; 0; 0x00; 0x02; 0xF7] session_driver)
    = Some (with_layout session_driver ChordLayout).
Proof.
  change [0; 0; 0; 0; 0; 0; 0x00; 0x02; 0xF7]
    with ([0; 0; 0; 0; 0; 0] ++ [0x00; 0x02; 0xF7]).
  rewrite (handle_midi_sysex_header_unchecked [0; 0; 0; 0; 0; 0] [0x00; 0x02; 0xF7]
             session_driver eq_refl).
  reflexivity.
Defined.

(** ** Note-on *)

(** X6. In the Session layout, a note-on with a velocity other than zero
    for any note number from 0 to 127 returns, leaves the driver as it was
    and writes nothing to the device: it prints the coordinate it looked
    up, a column and a row between 0 and 7. *)
Theorem handle_midi_note_on_session (lp : LaunchPadPro) (note v : Z) :
  tables_built lp → _current_layout lp = SessionLayout →
  0 ≤ note ≤ 127 → v ≠ 0 →
  ∃ col row,
    0 ≤ col ≤ 7 ∧ 0 ≤ row ≤ 7 ∧
    note_to_xy lp note = Some (col, row) ∧
    handle_midi_note_on_message (mkEvent note v) lp =
      Some (tt, lp,
            [ DebugTrace "Note On %1/0x%3%4%5 (velocity %2)\n" [note; v; note];
              Cerr "x: %1 y: %2\n" [col; row] ]).
Proof.
  intros Hb HL Hn Hv.
  pose proof (inverse_entries_session lp Hb HL) as Hall.
  rewrite forallb_forall in Hall. specialize (Hall note).
  unfold inverse_entry_ok in Hall.
  destruct (note_to_xy lp note) as [[col row]|] eqn:Hxy.
  - exists col, row.
    assert (Hr : 0 ≤ col ≤ 7 ∧ 0 ≤ row ≤ 7).
    { rewrite orb_true_iff, !bool_decide_eq_true in Hall.
      destruct Hall as [[-> ->]|(Hc & Hr & _)]; [|lia|lia].
      apply list_elem_of_In, elem_of_seqZ. lia. }
    split; [lia|]. split; [lia|]. split; [reflexivity|].
    unfold handle_midi_note_on_message. cbn [velocity note_number].
    rewrite bool_decide_eq_false_2 by exact Hv.
    unfold mbind, M_mbind, M_bind, DEBUG_TRACE, emit, this, defined, cerr.
    rewrite Hxy. reflexivity.
  - discriminate Hall. apply list_elem_of_In, elem_of_seqZ. lia.
Qed.

Lemma handle_midi_note_on_session_witness :
  handle_midi_note_on_message (mkEvent 0x33 100) session_driver =
    Some (tt, session_driver,
          [ DebugTrace "Note On %1/0x%3%4%5 (velocity %2)\n" [0x33; 100; 0x33];
            Cerr "x: %1 y: %2\n" [0; 3] ]).
Proof.
  destruct (handle_midi_note_on_session session_driver 0x33 100)
    as (col & row & _ & _ & Hxy & H).
  - vm_compute. reflexivity.
  - reflexivity.
  - lia.
  - lia.
  - rewrite H. assert (Some (col, row) = Some (0, 3)) as [= -> ->].
    { rewrite <- Hxy. reflexivity. }
    reflexivity.
Defined.

(** X7. Once a layout-info response has moved the driver to a layout
    other than Session (index 1 to 19), a note-on with a velocity other
    than zero reads the inverse table outside its 128 slots, for every note
    number from 0 to 127 but note 0 of layout 1. *)
Theorem note_on_after_layout_change (lp : LaunchPadPro) (idx note v : Z) (rest : list Z) :
  tables_built lp →
  1 ≤ idx ≤ 19 → 0 ≤ note ≤ 127 → idx ≠ 1 ∨ note ≠ 0 → v ≠ 0 →
  (handle_midi_sysex (sysex_header ++ [0x00; idx] ++ rest);;
   handle_midi_note_on_message (mkEvent note v)) lp = None.
Proof.
  intros Hb Hidx Hn Hex Hv.
  unfold mbind, M_mbind, M_bind.
  rewrite handle_midi_sysex_layout_info. cbv zeta.
  rewrite bool_decide_eq_true_2 by lia.
  rewrite (bool_decide_eq_true_2 (0 ≤ idx)) by lia.
  destruct (AllLayouts_lookup idx) as (l & Hl & Hval); [lia|].
  rewrite Hl.
  assert (Hxy : note_to_xy (with_layout lp l) note = None).
  { rewrite note_to_xy_unbuilt_layout; [| exact Hb | | exact Hn].
    - rewrite bool_decide_eq_false_2; [reflexivity|].
      simpl. intros [-> ->]. simpl in Hval. lia.
    - simpl. intros ->. simpl in Hval. lia. }
  unfold handle_midi_note_on_message. cbn [velocity note_number].
  rewrite bool_decide_eq_false_2 by exact Hv.
  unfold mbind, M_mbind, M_bind, DEBUG_TRACE, emit, this, defined.
  rewrite Hxy. reflexivity.
Qed.

Lemma note_on_after_layout_change_witness :
  (handle_midi_sysex [0xF0; 0x00; 0x20; 0x29; 0x02; 0x0E; 0x00; 0x04; 0xF7];;
   handle_midi_note_on_message (mkEvent 0x33 100)) session_driver = None.
Proof.
  apply (note_on_after_layout_change session_driver 4 0x33 100 [0xF7]).
  - vm_compute. reflexivity.
  - lia.
  - lia.
  - left. lia.
  - lia.
Defined.

(** ** The pad map, by the values of the edge pads *)

Lemma elem_of_grid_loop (row col : Z) :
  (row, col) ∈ grid_loop ↔ 0 ≤ row < 8 ∧ 0 ≤ col < 8.
Proof.
  unfold grid_loop. rewrite list_elem_of_bind. split.
  - intros (r & (c & Hc%list_elem_of_singleton & Hc')%list_elem_of_bind & Hr').
    injection Hc as -> ->. apply elem_of_seqZ in Hr', Hc'. lia.
  - intros [Hr Hc]. exists row. split; [|apply elem_of_seqZ; lia].
    apply list_elem_of_bind. exists col. split; [|apply elem_of_seqZ; lia].
    by apply list_elem_of_singleton.
Qed.

Lemma elem_of_grid_ids (v : Z) :
  v ∈ (grid_pad <$> grid_loop).*1 ↔ grid_id v.
Proof.
  unfold grid_id. rewrite list_elem_of_fmap. split.
  - intros ([k pad] & -> & ([row col] & Hp & Hin)%list_elem_of_fmap).
    apply elem_of_grid_loop in Hin. exists row, col.
    injection Hp as -> _. simpl. lia.
  - intros (row & col & Hr & Hc & ->).
    exists (grid_pad (row, col)). split; [reflexivity|].
    apply list_elem_of_fmap. exists (row, col). split; [reflexivity|].
    by apply elem_of_grid_loop.
Qed.

Lemma grid_ids_NoDup : NoDup (grid_pad <$> grid_loop).*1.
Proof. apply (bool_decide_unpack _). vm_compute. exact I. Qed.

Lemma all_edge_pads (id : PadID) : id ∈ edge_pads.
Proof.
  apply list_elem_of_In. destruct id; simpl; tauto.
Qed.

Lemma registration_ids (pad_value : PadID → Z) :
  (registrations pad_value).*1
    = (pad_value <$> edge_pads) ++ (grid_pad <$> grid_loop).*1.
Proof. unfold registrations. rewrite fmap_app. reflexivity. Qed.

(** On the empty map the final [assert] of [build_pad_map] cannot fail:
    the build is the run of the 105 insertions. *)
Lemma build_pad_map_run (pad_value : PadID → Z) :
  build_pad_map pad_value ∅
    = run_loop insert_or_abort (registrations pad_value) ∅.
Proof.
  unfold build_pad_map.
  pose proof (insert_all_spec (registrations pad_value) ∅) as H.
  unfold registrations in *. rewrite run_loop_app in *.
  destruct (run_loop insert_or_abort (EDGE_PAD pad_value <$> edge_pads) ∅)
    as [m1|]; cbn [mbind option_bind] in *; [|reflexivity].
  destruct (run_loop insert_or_abort (grid_pad <$> grid_loop) m1) as [m2|];
    cbn [mbind option_bind] in *; [|reflexivity].
  destruct H as (_ & _ & Hsize & _). rewrite map_size_empty in Hsize.
  rewrite bool_decide_eq_true_2; [reflexivity|]. exact Hsize.
Qed.

(** X8. [build_pad_map] completes exactly when the values of the edge
    pads are pairwise distinct and none of them is a grid id, 11 + 10 row +
    col with row and col from 0 to 7; the grid ids never collide with each
    other. *)
Theorem build_pad_map_completes_iff (pad_value : PadID → Z) :
  is_Some (build_pad_map pad_value ∅) ↔
  NoDup (pad_value <$> edge_pads) ∧ ∀ id, ¬ grid_id (pad_value id).
Proof.
  rewrite build_pad_map_run.
  pose proof (insert_all_spec (registrations pad_value) ∅) as H.
  rewrite registration_ids in H.
  assert (Hiff : NoDup ((pad_value <$> edge_pads) ++ (grid_pad <$> grid_loop).*1)
                 ↔ NoDup (pad_value <$> edge_pads) ∧ ∀ id, ¬ grid_id (pad_value id)).
  { rewrite NoDup_app. split.
    - intros (Hnd & Hdis & _). split; [exact Hnd|].
      intros id Hg%elem_of_grid_ids. apply (Hdis (pad_value id)); [|exact Hg].
      apply list_elem_of_fmap. exists id. split; [reflexivity|apply all_edge_pads].
    - intros [Hnd Hng]. split; [exact Hnd|]. split; [|apply grid_ids_NoDup].
      intros v (id & -> & _)%list_elem_of_fmap Hg%elem_of_grid_ids.
      by apply (Hng id). }
  rewrite <- Hiff.
  destruct (run_loop insert_or_abort (registrations pad_value) ∅) as [m|].
  - split; [intros _; apply H|eauto].
  - split; [by intros [? ?]|].
    intros Hnd. exfalso. apply H. split; [exact Hnd|].
    intros k _. apply lookup_empty.
Qed.

(** X9. After [build_pad_map], [pad_by_id] finds every grid pad under
    11 + 10 row + col, with that row and column, and every edge pad under
    its value; for any other id it returns null. *)
Theorem pad_by_id_built (pad_value : PadID → Z) (lp : LaunchPadPro) :
  build_pad_map pad_value ∅ = Some (pad_map lp) →
  (∀ row col, 0 ≤ row < 8 → 0 ≤ col < 8 →
     pad_by_id lp ((11 + (row * 10)) + col)
       = Some (Pad_grid ((11 + (row * 10)) + col) row col)) ∧
  (∀ id, pad_by_id lp (pad_value id) = Some (Pad_edge (pad_value id))) ∧
  (∀ k, ¬ grid_id k → (∀ id, pad_value id ≠ k) → pad_by_id lp k = None).
Proof.
  rewrite build_pad_map_run. intros Hrun.
  pose proof (insert_all_spec (registrations pad_value) ∅) as H.
  rewrite Hrun in H. destruct H as (_ & _ & _ & Hlook).
  unfold pad_by_id. split; [|split].
  - intros row col Hr Hc. apply Hlook. left. unfold registrations.
    apply elem_of_app. right. apply list_elem_of_fmap.
    exists (row, col). split; [reflexivity|by apply elem_of_grid_loop].
  - intros id. apply Hlook. left. unfold registrations.
    apply elem_of_app. left. apply list_elem_of_fmap.
    exists id. split; [reflexivity|apply all_edge_pads].
  - intros k Hng Hne.
    destruct (pad_map lp !! k) as [pad|] eqn:Hk; [|reflexivity].
    apply Hlook in Hk as [Hin|Hin]; [|by rewrite lookup_empty in Hin].
    unfold registrations in Hin. apply elem_of_app in Hin as [Hin|Hin].
    + apply list_elem_of_fmap in Hin as (id & [= -> _] & _).
      by destruct (Hne id).
    + exfalso. apply Hng, elem_of_grid_ids.
      apply list_elem_of_fmap. by exists (k, pad).
Qed.

Lemma pad_by_id_built_witness :
  pad_by_id session_driver 0x33 = Some (Pad_grid 0x33 4 0) ∧
  pad_by_id session_driver 0x5a = Some (Pad_edge 0x5a) ∧
  pad_by_id session_driver 0 = None.
Proof.
  destruct (pad_by_id_built device_pad_value session_driver) as (Hg & He & Hn).
  { vm_compute. reflexivity. }
  split; [exact (Hg 4 0 ltac:(lia) ltac:(lia))|].
  split; [exact (He Shift)|].
  apply Hn.
  - intros (row & col & Hr & Hc & Heq). lia.
  - intros id. destruct id; simpl; lia.
Defined.

(** ** What calls keep *)

Lemma keeps_ret {A} (R : LaunchPadPro → LaunchPadPro → Prop) `{!Reflexive R} (a : A) :
  keeps R (mret a).
Proof. intros lp a' lp' out [= _ <- _]. reflexivity. Qed.

Lemma keeps_bind {A B} (R : LaunchPadPro → LaunchPadPro → Prop) `{!Transitive R}
    (m : M A) (f : A → M B) :
  keeps R m → (∀ a, keeps R (f a)) → keeps R (m ≫= f).
Proof.
  intros Hm Hf lp b lp' out. unfold mbind, M_mbind, M_bind.
  destruct (m lp) as [[[a lp1] out1]|] eqn:E1; [|discriminate].
  destruct (f a lp1) as [[[b' lp2] out2]|] eqn:E2; [|discriminate].
  intros [= _ <- _]. etrans; [eapply Hm, E1|eapply Hf, E2].
Qed.

Lemma keeps_emit (R : LaunchPadPro → LaunchPadPro → Prop) `{!Reflexive R} (e : effect) :
  keeps R (emit e).
Proof. intros lp a lp' out [= _ <- _]. reflexivity. Qed.

Lemma keeps_this (R : LaunchPadPro → LaunchPadPro → Prop) `{!Reflexive R} :
  keeps R this.
Proof. intros lp a lp' out [= _ <- _]. reflexivity. Qed.

Lemma keeps_defined {A} (R : LaunchPadPro → LaunchPadPro → Prop) `{!Reflexive R}
    (o : option A) :
  keeps R (defined o).
Proof.
  intros lp a lp' out. unfold defined. destruct o; [|discriminate].
  intros [= _ <- _]. reflexivity.
Qed.

#[local] Instance same_build_refl : Reflexive same_build.
Proof. by intros lp. Qed.

#[local] Instance same_build_trans : Transitive same_build.
Proof.
  intros a b c (H1 & H2 & H3) (H4 & H5 & H6).
  split; [congruence|]. split; congruence.
Qed.

#[local] Instance same_layout_refl : Reflexive same_layout.
Proof. by intros lp. Qed.

#[local] Instance same_layout_trans : Transitive same_layout.
Proof.
  intros a b c [H1 H2] [H3 H4]. split; [by etrans|congruence].
Qed.

Section Calls.

Variable Pad_set : Z → ColorMode → Pad → Pad.
Variable state_msg : Pad → MidiByteArray.

Lemma keeps_light_pad pid color mode :
  keeps same_layout (light_pad Pad_set state_msg pid color mode).
Proof.
  intros lp a lp' out. unfold light_pad, mbind, M_mbind, M_bind, this.
  unfold pad_by_id. destruct (pad_map lp !! pid) as [pad|] eqn:Hp.
  - unfold store_pad, daw_write, emit. intros [= _ <- _].
    repeat split. simpl. by apply dom_insert_lookup_L.
  - intros [= _ <- _]. reflexivity.
Qed.

Lemma pad_off_light_pad pid :
  pad_off Pad_set state_msg pid = light_pad Pad_set state_msg pid 0 Static.
Proof. reflexivity. Qed.

Lemma keeps_scroll_text txt color loop speed :
  keeps same_layout (scroll_text txt color loop speed).
Proof.
  unfold scroll_text. cbv zeta.
  apply keeps_bind; [apply _|apply keeps_emit, _|]. intros _.
  destruct (negb (Qeq_bool speed 0)); [|apply keeps_ret, _].
  apply keeps_bind; [apply _|apply keeps_defined, _|]. intros msg1.
  apply keeps_bind; [apply _|apply keeps_defined, _|]. intros msg2.
  apply keeps_emit, _.
Qed.

Lemma keeps_note_on ev : keeps same_layout (handle_midi_note_on_message ev).
Proof.
  unfold handle_midi_note_on_message.
  destruct (bool_decide (velocity ev = 0)); [apply keeps_emit, _|].
  apply keeps_bind; [apply _|apply keeps_emit, _|]. intros _.
  apply keeps_bind; [apply _|apply keeps_this, _|]. intros lp.
  apply keeps_bind; [apply _|apply keeps_defined, _|]. intros coord.
  apply keeps_emit, _.
Qed.

Lemma keeps_sysex raw : keeps same_build (handle_midi_sysex raw).
Proof.
  intros lp a lp' out. rewrite handle_midi_sysex_reads. cbv zeta.
  repeat case_match; try discriminate; by intros [= _ <- _].
Qed.

Lemma keeps_run_call_layout c :
  is_call_sysex c = false → keeps same_layout (run_call Pad_set state_msg c).
Proof.
  intros Hc.
  destruct c as [|?|? ?|m|? ? ? ?|? ? ?|?|?|?|?|?]; try discriminate; simpl.
  - intros lp a lp' out [= _ <- _]. reflexivity.
  - intros lp a lp' out [= _ <- _]. reflexivity.
  - intros lp a lp' out [= _ <- _]. reflexivity.
  - destruct m; intros lp a lp' out [= _ <- _]; reflexivity.
  - apply keeps_scroll_text.
  - apply keeps_light_pad.
  - rewrite pad_off_light_pad. apply keeps_light_pad.
  - apply keeps_note_on.
  - apply keeps_emit, _.
  - apply keeps_emit, _.
Qed.

Lemma keeps_run_call c : keeps same_build (run_call Pad_set state_msg c).
Proof.
  destruct (is_call_sysex c) eqn:Hc.
  - destruct c; try discriminate. apply keeps_sysex.
  - intros lp a lp' out H. by destruct (keeps_run_call_layout c Hc _ _ _ _ H).
Qed.

Lemma keeps_run_calls cs : keeps same_build (run_calls Pad_set state_msg cs).
Proof.
  induction cs as [|c cs IH]; simpl.
  - apply keeps_ret, _.
  - apply keeps_bind; [apply _|apply keeps_run_call|]. intros _. exact IH.
Qed.

Lemma keeps_run_calls_layout cs :
  Forall (λ c, is_call_sysex c = false) cs →
  keeps same_layout (run_calls Pad_set state_msg cs).
Proof.
  intros Hcs. induction Hcs as [|c cs Hc Hcs IH]; simpl.
  - apply keeps_ret, _.
  - apply keeps_bind; [apply _|by apply keeps_run_call_layout|]. intros _. exact IH.
Qed.

End Calls.

Lemma construct_pad_map (pad_value : PadID → Z) (lp : LaunchPadPro) :
  construct pad_value = Some lp →
  build_pad_map pad_value ∅ = Some (pad_map lp) ∧ size (pad_map lp) = 105%nat.
Proof.
  unfold construct, build_layout_maps.
  intros (pm & Hpm & H)%bind_Some.
  apply bind_Some in H as ([xy nxy] & _ & [= <-]). simpl.
  split; [exact Hpm|].
  rewrite build_pad_map_run in Hpm.
  pose proof (insert_all_spec (registrations pad_value) ∅) as H.
  rewrite Hpm in H. destruct H as (_ & _ & Hsize & _).
  rewrite map_size_empty in Hsize. exact Hsize.
Qed.

(** X10. Whatever sequence of calls a host makes on a constructed driver
    (sending messages, lighting pads, inbound SysEx, notes and controller
    changes), when the calls return the driver still carries the layout
    tables the constructor built and the same 105 pad ids: no call adds or
    removes a pad or touches a table. *)
Theorem run_calls_keep_build (Pad_set : Z → ColorMode → Pad → Pad)
    (state_msg : Pad → MidiByteArray) (pad_value : PadID → Z)
    (cs : list call) (lp lp' : LaunchPadPro) (out : list effect) :
  construct pad_value = Some lp →
  run_calls Pad_set state_msg cs lp = Some (tt, lp', out) →
  tables_built lp' ∧
  size (pad_map lp') = 105%nat ∧
  ∀ pid, is_Some (pad_by_id lp' pid) ↔ is_Some (pad_by_id lp pid).
Proof.
  intros Hc Hrun.
  destruct (keeps_run_calls Pad_set state_msg cs _ _ _ _ Hrun) as (Hxy & Hnxy & Hdom).
  destruct (construct_pad_map _ _ Hc) as [_ Hsize].
  split; [|split].
  - pose proof (tables_built_construct _ _ Hc) as Hb.
    unfold tables_built in *. by rewrite Hxy, Hnxy.
  - rewrite <- Hsize, <- !size_dom. by rewrite Hdom.
  - intros pid. unfold pad_by_id. rewrite <- !elem_of_dom. by rewrite Hdom.
Qed.

Lemma run_calls_keep_build_witness :
  ∃ lp' out,
    run_calls (λ c m p, mkPad (pad_id p) (grid_position p) c m)
              (λ p, [0x90; pad_id p; color p])
              [ call_sysex [0xF0; 0x00; 0x20; 0x29; 0x02; 0x0E; 0x00; 0x02; 0xF7];
                call_light_pad 0x33 5 Static;
                call_all_pads_off ]
              session_driver = Some (tt, lp', out) ∧
    tables_built lp' ∧ size (pad_map lp') = 105%nat.
Proof.
  destruct (run_calls (λ c m p, mkPad (pad_id p) (grid_position p) c m)
              (λ p, [0x90; pad_id p; color p])
              [ call_sysex [0xF0; 0x00; 0x20; 0x29; 0x02; 0x0E; 0x00; 0x02; 0xF7];
                call_light_pad 0x33 5 Static;
                call_all_pads_off ]
              session_driver) as [[[[] lp'] out]|] eqn:E;
    [|vm_compute in E; discriminate].
  exists lp', out. split; [reflexivity|].
  destruct (run_calls_keep_build _ _ device_pad_value _ session_driver lp' out
              session_driver_constructed E) as (Hb & Hs & _).
  split; [exact Hb|exact Hs].
Defined.

(** X11. Only an inbound SysEx changes the current layout: after any
    sequence of calls without one, [set_layout] among them, the current
    layout is what it was. *)
Theorem current_layout_changes_by_sysex_only (Pad_set : Z → ColorMode → Pad → Pad)
    (state_msg : Pad → MidiByteArray)
    (cs : list call) (lp lp' : LaunchPadPro) (out : list effect) :
  Forall (λ c, is_call_sysex c = false) cs →
  run_calls Pad_set state_msg cs lp = Some (tt, lp', out) →
  _current_layout lp' = _current_layout lp.
Proof.
  intros Hcs Hrun.
  by destruct (keeps_run_calls_layout Pad_set state_msg cs Hcs _ _ _ _ Hrun).
Qed.

Lemma current_layout_changes_by_sysex_only_witness :
  ∃ lp' out,
    run_calls (λ c m p, mkPad (pad_id p) (grid_position p) c m)
              (λ p, [0x90; pad_id p; color p])
              [ call_set_layout NoteLayout 0; call_set_device_mode DAW ]
              session_driver = Some (tt, lp', out) ∧
    _current_layout lp' = SessionLayout.
Proof.
  destruct (run_calls (λ c m p, mkPad (pad_id p) (grid_position p) c m)
              (λ p, [0x90; pad_id p; color p])
              [ call_set_layout NoteLayout 0; call_set_device_mode DAW ]
              session_driver) as [[[[] lp'] out]|] eqn:E;
    [|vm_compute in E; discriminate].
  exists lp', out. split; [reflexivity|].
  apply (current_layout_changes_by_sysex_only _ _ _ session_driver lp' out) in E.
  - exact E.
  - repeat constructor.
Defined.

(** ** Lighting a pad *)

(** X12. [light_pad] on an id that is not registered does nothing: no
    record is made and nothing is sent.  On a registered id it replaces
    that one record by the result of [Pad::set], leaves every other pad,
    the current layout and the tables as they were, and sends the state
    message of the new record, once.  [pad_off] is [light_pad] with colour
    0 and the static mode. *)
Theorem light_pad_one_pad (Pad_set : Z → ColorMode → Pad → Pad)
    (state_msg : Pad → MidiByteArray)
    (pid color : Z) (mode : ColorMode) (lp : LaunchPadPro) :
  match pad_by_id lp pid with
  | None => light_pad Pad_set state_msg pid color mode lp = Some (tt, lp, [])
  | Some pad =>
      ∃ lp',
        light_pad Pad_set state_msg pid color mode lp
          = Some (tt, lp', [ DawWrite (state_msg (Pad_set color mode pad)) ]) ∧
        pad_by_id lp' pid = Some (Pad_set color mode pad) ∧
        (∀ k, k ≠ pid → pad_by_id lp' k = pad_by_id lp k) ∧
        same_layout lp lp'
  end ∧
  pad_off Pad_set state_msg pid lp = light_pad Pad_set state_msg pid 0 Static lp.
Proof.
  split; [|reflexivity].
  unfold light_pad, mbind, M_mbind, M_bind, this.
  destruct (pad_by_id lp pid) as [pad|] eqn:Hp; [|reflexivity].
  eexists. split; [reflexivity|]. unfold pad_by_id in *. simpl.
  split; [apply lookup_insert_eq|]. split.
  - intros k Hk. by apply lookup_insert_ne.
  - repeat split. simpl. by apply dom_insert_lookup_L.
Qed.

(** ** Outbound messages *)

(** X13. [all_pads_on] sends one nine-byte message, the header, 0x0E, the
    colour and 0xF7, and leaves the driver as it was.  The colour byte is
    the colour modulo 128 for every [int] colour, negative ones too, so it
    is always a 7-bit data byte. *)
Theorem all_pads_on_color_byte (color : Z) (lp : LaunchPadPro) :
  all_pads_on color lp =
    Some (tt, lp, [ DawWrite (sysex_header ++ [0x0E; color mod 128] ++ [0xF7]) ]) ∧
  0 ≤ color mod 128 ≤ 127.
Proof.
  split; [|pose proof (Z.mod_pos_bound color 128); lia].
  unfold all_pads_on, daw_write, emit, push_back. cbv zeta.
  change 127 with (Z.ones 7). rewrite Z.land_ones by lia.
  change (2 ^ 7) with 128.
  assert (to_byte (color mod 128) = color mod 128) as ->.
  { unfold to_byte. apply Z.mod_small.
    pose proof (Z.mod_pos_bound color 128). lia. }
  reflexivity.
Qed.

(** X14. With an empty text and a speed other than zero, [scroll_text]
    writes the terminator of its second message one element past the end
    of the ten-byte message it has built. *)
Theorem scroll_text_empty_text (color : Z) (loop : bool) (speed : Q) (lp : LaunchPadPro) :
  ¬ speed == 0 →
  scroll_text "" color loop speed lp = None ∧
  vec_set (sysex_header <<< 0x32 <<< color <<< (if loop then 1 else 0) <<< 0xf7)
          (Z.of_nat (length sysex_header) + 4) 0xf7 = None.
Proof.
  intros Hs. split; [|by destruct loop].
  unfold scroll_text.
  destruct (Qeq_bool speed 0) eqn:E; [by apply Qeq_bool_iff in E|].
  by destruct loop.
Qed.

Lemma scroll_text_empty_text_witness :
  scroll_text "" 5 true 1 session_driver = None.
Proof.
  apply (scroll_text_empty_text 5 true 1 session_driver).
  intros H. discriminate H.
Defined.





(** ** Stripable slots *)

Lemma size_type_nonneg (w z : Z) :
  32 ≤ w → 0 ≤ z < 2 ^ 31 → size_type w z = z.
Proof.
  intros Hw Hz. unfold size_type. apply Z.mod_small.
  assert (2 ^ 31 ≤ 2 ^ w) by (apply Z.pow_le_mono_r; lia). lia.
Qed.

Lemma size_type_neg (w z : Z) :
  32 ≤ w → - 2 ^ 31 ≤ z < 0 → size_type w z = z + 2 ^ w.
Proof.
  intros Hw Hz. unfold size_type.
  assert (2 ^ 31 < 2 ^ w) by (apply Z.pow_lt_mono_r; lia).
  symmetry. apply (Z.mod_unique z (2 ^ w) (-1)); lia.
Qed.

(** X17. [get_stripable_slot] adds the scroll offsets and answers (-1, -1)
    when a sum is negative or greater than the size of the vector it
    indexes.  A sum equal to that size passes the test, and the read is
    then one element past the end of the vector.  Inside the vector it
    returns the slot stored there. *)
Theorem get_stripable_slot_bounds (w : Z) (g : SlotGrid) (x y : Z) :
  32 ≤ w →
  - 2 ^ 31 ≤ x + scroll_x_offset g < 2 ^ 31 →
  - 2 ^ 31 ≤ y + scroll_y_offset g < 2 ^ 31 →
  Z.of_nat (length (stripable_slots g)) < 2 ^ 31 →
  Forall (λ row, Z.of_nat (length row) < 2 ^ 31) (stripable_slots g) →
  let sx := x + scroll_x_offset g in
  let sy := y + scroll_y_offset g in
  let n := Z.of_nat (length (stripable_slots g)) in
  (sx < 0 ∨ n < sx → get_stripable_slot w g x y = Some (-1, -1)) ∧
  (sx = n → get_stripable_slot w g x y = None) ∧
  (∀ row, 0 ≤ sx → stripable_slots g !! Z.to_nat sx = Some row →
     let m := Z.of_nat (length row) in
     (sy < 0 ∨ m < sy → get_stripable_slot w g x y = Some (-1, -1)) ∧
     (sy = m → get_stripable_slot w g x y = None) ∧
     (0 ≤ sy < m →
      ∃ slot, row !! Z.to_nat sy = Some slot ∧
              get_stripable_slot w g x y = Some slot)).
Proof.
  intros Hw Hx Hy Hn Hrows sx sy n.
  assert (Hpow : 2 ^ 32 ≤ 2 ^ w) by (apply Z.pow_le_mono_r; lia).
  unfold get_stripable_slot. fold sx sy n.
  split; [|split].
  - intros [Hneg|Hbig].
    + rewrite bool_decide_eq_true_2; [reflexivity|].
      rewrite size_type_neg by lia. lia.
    + rewrite bool_decide_eq_true_2; [reflexivity|].
      rewrite size_type_nonneg by lia. lia.
  - intros Heq. rewrite size_type_nonneg by lia.
    rewrite bool_decide_eq_false_2 by lia.
    rewrite (lookup_ge_None_2 (stripable_slots g)) by lia. reflexivity.
  - intros row Hsx Hrow. set (m := Z.of_nat (length row)).
    pose proof (lookup_lt_Some _ _ _ Hrow) as Hlt.
    pose proof (Forall_lookup_1 _ _ _ _ Hrows Hrow) as Hm. simpl in Hm.
    rewrite (size_type_nonneg w sx) by lia.
    rewrite bool_decide_eq_false_2 by lia.
    rewrite Hrow. cbn [mbind option_bind]. fold m.
    split; [|split].
    + intros [Hneg|Hbig].
      * rewrite bool_decide_eq_true_2; [reflexivity|].
        rewrite size_type_neg by lia. lia.
      * rewrite bool_decide_eq_true_2; [reflexivity|].
        rewrite size_type_nonneg by lia. lia.
    + intros Heq. rewrite size_type_nonneg by lia.
      rewrite bool_decide_eq_false_2 by lia.
      apply lookup_ge_None_2. lia.
    + intros Hin. rewrite size_type_nonneg by lia.
      rewrite bool_decide_eq_false_2 by lia.
      destruct (lookup_lt_is_Some_2 row (Z.to_nat sy)) as [slot Hs]; [lia|].
      exists slot. split; exact Hs.
Qed.

Lemma get_stripable_slot_bounds_witness :
  get_stripable_slot 64 (mkSlotGrid 1 0 [[(0, 0); (0, 1)]; [(1, 0); (1, 1)]]) (-2) 0
    = Some (-1, -1) ∧
  get_stripable_slot 64 (mkSlotGrid 1 0 [[(0, 0); (0, 1)]; [(1, 0); (1, 1)]]) 1 0
    = None ∧
  get_stripable_slot 64 (mkSlotGrid 1 0 [[(0, 0); (0, 1)]; [(1, 0); (1, 1)]]) 0 1
    = Some (1, 1).
Proof.
  set (g := mkSlotGrid 1 0 [[(0, 0); (0, 1)]; [(1, 0); (1, 1)]]).
  assert (Hrows : Forall (λ row : list (Z * Z), Z.of_nat (length row) < 2 ^ 31)
                         (stripable_slots g)).
  { repeat constructor. }
  split; [|split].
  - apply (get_stripable_slot_bounds 64 g (-2) 0); [lia|simpl; lia..|exact Hrows|].
    left. simpl. lia.
  - apply (get_stripable_slot_bounds 64 g 1 0); [lia|simpl; lia..|exact Hrows|].
    reflexivity.
  - destruct (get_stripable_slot_bounds 64 g 0 1) as (_ & _ & H);
      [lia|simpl; lia..|exact Hrows|].
    destruct (H [(1, 0); (1, 1)]) as (_ & _ & Hin); [simpl; lia|reflexivity|].
    destruct Hin as (slot & Hs & Hg); [simpl; lia|].
    rewrite Hg. rewrite <- Hs. reflexivity.
Defined.
